(** * Loss-log extraction of [src/utils.py]

    A shallow embedding of [extract_loss_info_from_stdout] and of the
    Python built-ins it calls ([re.findall], [str.strip], [str.split],
    [str.startswith], [int], [float], [pd.DataFrame], [dict] item
    assignment), followed by the properties of the log parser.  The
    other functions of the file that compute on text and dictionaries
    are embedded as well: [translate_model_name],
    [unravel_metric_report], [convert_and_clean_dict] with its helper
    [convert], [extract_filenames] and
    [get_synthetic_filepaths_from_original_data_id] (the last two on a
    given directory listing).

    Text is a sequence of code points below 256 ([list ascii]); on that
    range [\d] is [0-9] and the white space of [str.strip] is the set
    listed in [isspace]. *)

From Stdlib Require Import Ascii String DecimalString List ZArith NArith Bool Lia.
From stdpp Require Import base option list countable strings gmap.

Import ListNotations.
Local Open Scope list_scope.

(** ** Text *)

Abbreviation str := (list ascii).

(** A literal of the source, written as a Rocq string. *)
Definition py (x : string) : str := list_ascii_of_string x.

(** The line break ["\n"]. *)
Definition LF : ascii := ascii_of_nat 10.

(** [str.startswith(p)] *)
Fixpoint startswith (p s : str) : bool :=
  match p, s with
  | [], _ => true
  | _ :: _, [] => false
  | a :: p', b :: s' => Ascii.eqb a b && startswith p' s'
  end.

(** [p in s] *)
Fixpoint contains (p s : str) : bool :=
  startswith p s ||
  match s with
  | [] => false
  | _ :: s' => contains p s'
  end.

(** [str.isspace] on one code point below 256. *)
Definition isspace (a : ascii) : bool :=
  let n := nat_of_ascii a in
  ((9 <=? n) && (n <=? 13)) || ((28 <=? n) && (n <=? 32))
  || (n =? 133) || (n =? 160).

Fixpoint lstrip (s : str) : str :=
  match s with
  | a :: s' => if isspace a then lstrip s' else s
  | [] => []
  end.

Definition rstrip (s : str) : str := rev (lstrip (rev s)).

(** [str.strip()] *)
Definition strip (s : str) : str := rstrip (lstrip s).

(** [s.split(sep)] for a one-character separator: the pieces between the
    separators, empty pieces included; never the empty list. *)
Fixpoint split (sep : ascii) (s : str) : list str :=
  match s with
  | [] => [[]]
  | a :: s' =>
      if Ascii.eqb a sep then [] :: split sep s'
      else match split sep s' with
           | piece :: pieces => (a :: piece) :: pieces
           | [] => [[a]]
           end
  end.

(** [sep.join(pieces)] for a one-character separator. *)
Fixpoint join (sep : ascii) (pieces : list str) : str :=
  match pieces with
  | [] => []
  | [piece] => piece
  | piece :: rest => piece ++ sep :: join sep rest
  end.

(** ** Exceptions *)

Inductive exn : Type :=
| IndexError                (* list index out of range *)
| ValueError (msg : str).

(** The text an exception carries, as [str(e)] shows it. *)
Definition exn_message (e : exn) : str :=
  match e with
  | IndexError => py "list index out of range"
  | ValueError msg => msg
  end.

Inductive result (A : Type) : Type :=
| Ok (a : A)
| Raise (e : exn).
Arguments Ok {A} a.
Arguments Raise {A} e.

Definition bind {A B} (r : result A) (k : A -> result B) : result B :=
  match r with
  | Ok a => k a
  | Raise e => Raise e
  end.

Declare Scope py_scope.
Delimit Scope py_scope with py.
Notation "x <- r ;; k" := (bind r (fun x => k))
  (at level 100, r at next level, right associativity) : py_scope.
Local Open Scope py_scope.

(** [l[0]] *)
Definition index0 {A} (l : list A) : result A :=
  match l with
  | x :: _ => Ok x
  | [] => Raise IndexError
  end.

(** ** Regular expressions

    The fragment of [re] that the four patterns of the source use: a
    literal, and a capturing group around one character class under [+]
    or [+?].  Matching is by backtracking, the first alternative that
    lets the rest of the pattern match wins. *)

Inductive cclass : Type :=
| Dot      (* . *)
| Digit.   (* \d *)

Inductive node : Type :=
| Lit (p : str)
| Group (greedy : bool) (c : cclass).   (* (c+) or (c+?) *)

Abbreviation regex := (list node).

Definition isdigit (a : ascii) : bool :=
  let n := nat_of_ascii a in (48 <=? n) && (n <=? 57).

Definition class_ok (dotall : bool) (c : cclass) (a : ascii) : bool :=
  match c with
  | Dot => dotall || negb (Ascii.eqb a LF)
  | Digit => isdigit a
  end.

(** What is left of [s] behind the literal [p]. *)
Fixpoint after_literal (p s : str) : option str :=
  match p, s with
  | [], _ => Some s
  | _ :: _, [] => None
  | a :: p', b :: s' => if Ascii.eqb a b then after_literal p' s' else None
  end.

(** [c+?] followed by [k]: the shortest run first. [acc] is the run so far. *)
Fixpoint plus_lazy {R} (ok : ascii -> bool) (k : str -> str -> option R)
    (acc s : str) : option R :=
  match s with
  | [] => None
  | a :: s' =>
      if ok a then
        match k (acc ++ [a]) s' with
        | Some r => Some r
        | None => plus_lazy ok k (acc ++ [a]) s'
        end
      else None
  end.

(** [c+] followed by [k]: the longest run first. *)
Fixpoint plus_greedy {R} (ok : ascii -> bool) (k : str -> str -> option R)
    (acc s : str) : option R :=
  match s with
  | [] => None
  | a :: s' =>
      if ok a then
        match plus_greedy ok k (acc ++ [a]) s' with
        | Some r => Some r
        | None => k (acc ++ [a]) s'
        end
      else None
  end.

(** A match of [r] at the start of [s]: the groups (after [groups]) and
    the text behind the match. *)
Fixpoint match_here (dotall : bool) (r : regex) (groups : list str) (s : str)
    : option (list str * str) :=
  match r with
  | [] => Some (groups, s)
  | Lit p :: r' =>
      match after_literal p s with
      | Some s' => match_here dotall r' groups s'
      | None => None
      end
  | Group greedy c :: r' =>
      (if greedy then plus_greedy else plus_lazy)
        (class_ok dotall c)
        (fun cap rest => match_here dotall r' (groups ++ [cap]) rest) [] s
  end.

(** The scan of [re.findall]: try every position from the left; behind a
    match the scan goes on at its end ([skip] counts the characters of
    the match still to pass, an empty match advances by one). *)
Fixpoint scan (dotall : bool) (r : regex) (skip : nat) (s : str)
    : list (list str) :=
  match skip, s with
  | S n, _ :: s' => scan dotall r n s'
  | S _, [] => []
  | 0, _ =>
      match match_here dotall r [] s with
      | Some (groups, rest) =>
          groups ::
          match s with
          | _ :: s' => scan dotall r (length s - length rest - 1) s'
          | [] => []
          end
      | None =>
          match s with
          | _ :: s' => scan dotall r 0 s'
          | [] => []
          end
      end
  end.

(** [re.findall(r, s)], every match as the list of its groups. *)
Definition findall (dotall : bool) (r : regex) (s : str) : list (list str) :=
  scan dotall r 0 s.

(** [re.findall(r, s)] for a pattern with one group: the group itself. *)
Definition findall1 (r : regex) (s : str) : list str :=
  map (fun groups => nth 0 groups []) (findall false r s).

(** ** Numbers: [int] and [float] of a text *)

(** The white space [int] and [float] ignore around a number: less than
    [isspace], the separators 28 to 31 are not part of it. *)
Definition isspace_number (a : ascii) : bool :=
  let n := nat_of_ascii a in
  ((9 <=? n) && (n <=? 13)) || (n =? 32) || (n =? 133) || (n =? 160).

Fixpoint lstrip_number (s : str) : str :=
  match s with
  | a :: s' => if isspace_number a then lstrip_number s' else s
  | [] => []
  end.

Definition strip_number (s : str) : str :=
  rev (lstrip_number (rev (lstrip_number s))).

Definition underscore : ascii := ascii_of_nat 95.

(** [digit (["_"] digit)*]: the digits, without the underscores. *)
Fixpoint digitpart (s : str) : option (list ascii) :=
  match s with
  | [] => None
  | a :: s' =>
      if isdigit a then
        match s' with
        | [] => Some [a]
        | b :: s'' =>
            if Ascii.eqb b underscore
            then option_map (cons a) (digitpart s'')
            else option_map (cons a) (digitpart s')
        end
      else None
  end.

Definition digit_value (a : ascii) : N := N.of_nat (nat_of_ascii a - 48).

Definition digits_value (ds : list ascii) : N :=
  fold_left (fun n a => (10 * n + digit_value a)%N) ds 0%N.

(** An optional sign in front of [s]: whether it is [-], and the rest. *)
Definition sign (s : str) : bool * str :=
  match s with
  | a :: s' =>
      if Ascii.eqb a (ascii_of_nat 45) then (true, s')
      else if Ascii.eqb a (ascii_of_nat 43) then (false, s')
      else (false, s)
  | [] => (false, s)
  end.

Definition signed (negative : bool) (n : N) : Z :=
  if negative then (- Z.of_N n)%Z else Z.of_N n.

(** [repr] of a text inside a message (the escapes of [repr] are not
    modelled). *)
Definition repr (s : str) : str := py "'" ++ s ++ py "'".

(** [sys.int_info.default_max_str_digits]; 0 switches the limit off. *)
Definition int_max_str_digits : nat := 4300.

Definition decimal (n : nat) : str :=
  py (DecimalString.NilEmpty.string_of_uint (Nat.to_uint n)).

(** [int(s)] *)
Definition py_int (s : str) : result Z :=
  let (negative, body) := sign (strip_number s) in
  match digitpart body with
  | Some ds =>
      if (0 <? int_max_str_digits) && (int_max_str_digits <? length ds)
      then Raise (ValueError
             (py "Exceeds the limit (4300 digits) for integer string conversion: value has "
              ++ decimal (length ds)
              ++ py " digits; use sys.set_int_max_str_digits() to increase the limit"))
      else Ok (signed negative (digits_value ds))
  | None =>
      Raise (ValueError (py "invalid literal for int() with base 10: " ++ repr s))
  end.

(** A Python [float], by the decimal value its text denotes (the double
    is the one nearest to that value; the rounding is not modelled).
    [FDec neg m e] is [m * 10^e] with sign [neg], and [m] is not a
    multiple of ten, or [m = 0] and [e = 0]. *)
Inductive pyfloat : Type :=
| FNaN
| FInf (negative : bool)
| FDec (negative : bool) (mantissa : N) (exp10 : Z).

Definition lower (a : ascii) : ascii :=
  let n := nat_of_ascii a in
  if (65 <=? n) && (n <=? 90) then ascii_of_nat (n + 32) else a.

Definition eq_str (a b : str) : bool :=
  (length a =? length b) && startswith a b.

(** The text up to the first character that satisfies [stop], the
    character, and the text behind it. *)
Fixpoint break_at (stop : ascii -> bool) (s : str) : str * option (ascii * str) :=
  match s with
  | [] => ([], None)
  | a :: s' =>
      if stop a then ([], Some (a, s'))
      else let (before, behind) := break_at stop s' in (a :: before, behind)
  end.

(** Trailing zeros of the digits (least significant first) move into the
    exponent. *)
Fixpoint drop_zeros (rev_digits : list ascii) (e : Z) : list ascii * Z :=
  match rev_digits with
  | a :: more =>
      if Ascii.eqb a (ascii_of_nat 48) then drop_zeros more (e + 1)%Z
      else (rev_digits, e)
  | [] => ([], e)
  end.

Definition decimal_float (negative : bool) (int_digits frac_digits : list ascii)
    (e : Z) : pyfloat :=
  let (rev_digits, e') :=
    drop_zeros (rev (int_digits ++ frac_digits)) (e - Z.of_nat (length frac_digits))%Z in
  match rev_digits with
  | [] => FDec negative 0 0
  | _ => FDec negative (digits_value (rev rev_digits)) e'
  end.

(** [[digitpart] "." digitpart | digitpart ["."]]: the digits before and
    behind the point. *)
Definition number (s : str) : option (list ascii * list ascii) :=
  match break_at (Ascii.eqb (ascii_of_nat 46)) s with
  | (int_text, None) =>
      option_map (fun ds => (ds, [])) (digitpart int_text)
  | (int_text, Some (_, [])) =>
      option_map (fun ds => (ds, [])) (digitpart int_text)
  | ([], Some (_, frac_text)) =>
      option_map (fun ds => ([], ds)) (digitpart frac_text)
  | (int_text, Some (_, frac_text)) =>
      match digitpart int_text, digitpart frac_text with
      | Some ds, Some fs => Some (ds, fs)
      | _, _ => None
      end
  end.

(** [("e" | "E") [sign] digitpart], behind the letter. *)
Definition exponent (s : str) : option Z :=
  let (negative, body) := sign s in
  option_map (fun ds => signed negative (digits_value ds)) (digitpart body).

Definition is_e (a : ascii) : bool :=
  Ascii.eqb (lower a) (ascii_of_nat 101).

(** [float(s)] *)
Definition py_float (s : str) : result pyfloat :=
  let (negative, body) := sign (strip_number s) in
  let word := map lower body in
  if eq_str word (py "inf") || eq_str word (py "infinity") then Ok (FInf negative)
  else if eq_str word (py "nan") then Ok FNaN
  else
    let parsed :=
      match break_at is_e body with
      | (mantissa, None) =>
          option_map (fun '(ds, fs) => decimal_float negative ds fs 0) (number mantissa)
      | (mantissa, Some (_, exp_text)) =>
          match number mantissa, exponent exp_text with
          | Some (ds, fs), Some e => Some (decimal_float negative ds fs e)
          | _, _ => None
          end
      end in
    match parsed with
    | Some f => Ok f
    | None => Raise (ValueError (py "could not convert string to float: " ++ repr s))
    end.

(** ** The table: [pd.DataFrame] with the columns Epoch, Loss_G, Loss_D *)

Record DataFrame : Type := {
  Epoch : list Z;
  Loss_G : list pyfloat;
  Loss_D : list pyfloat
}.

(** [pd.DataFrame({"Epoch": e, "Loss_G": g, "Loss_D": d})]: columns of
    different lengths are refused. *)
Definition pd_DataFrame (e : list Z) (g d : list pyfloat) : result DataFrame :=
  if (length e =? length g) && (length g =? length d)
  then Ok {| Epoch := e; Loss_G := g; Loss_D := d |}
  else Raise (ValueError (py "All arrays must be of the same length")).

(** The rows of a table, first to last. *)
Fixpoint zip3 (e : list Z) (g d : list pyfloat) : list (Z * pyfloat * pyfloat) :=
  match e, g, d with
  | x :: e', y :: g', z :: d' => (x, y, z) :: zip3 e' g' d'
  | _, _, _ => []
  end.

Definition rows (df : DataFrame) : list (Z * pyfloat * pyfloat) :=
  zip3 (Epoch df) (Loss_G df) (Loss_D df).

(** ** [extract_loss_info_from_stdout] *)

(** [r"#START#\n(.+?)\n(.+?)#END#"], used with [re.DOTALL] *)
Definition block_pattern : regex :=
  [Lit (py "#START#" ++ [LF]); Group false Dot; Lit [LF]; Group false Dot;
   Lit (py "#END#")].

(** [r"Epoch (\d+)"] *)
Definition epoch_pattern : regex := [Lit (py "Epoch "); Group true Digit].

(** [r"Loss G: (.+?),"] *)
Definition loss_g_pattern : regex :=
  [Lit (py "Loss G: "); Group false Dot; Lit (py ",")].

(** [r"Loss D: (.+)"] *)
Definition loss_d_pattern : regex := [Lit (py "Loss D: "); Group true Dot].

Definition is_epoch_line (line : str) : bool := startswith (py "Epoch") line.

(** [[f(line) for line in lines if line.startswith("Epoch")]]: the first
    element that raises ends the comprehension. *)
Fixpoint comprehension {A} (f : str -> result A) (lines : list str)
    : result (list A) :=
  match lines with
  | [] => Ok []
  | line :: more =>
      if is_epoch_line line then
        x <- f line ;; xs <- comprehension f more ;; Ok (x :: xs)
      else comprehension f more
  end.

(** [int(re.findall(r"Epoch (\d+)", line)[0])] *)
Definition epoch_of (line : str) : result Z :=
  g <- index0 (findall1 epoch_pattern line) ;; py_int g.

(** [float(re.findall(r"Loss G: (.+?),", line)[0])] *)
Definition loss_g_of (line : str) : result pyfloat :=
  g <- index0 (findall1 loss_g_pattern line) ;; py_float g.

(** [float(re.findall(r"Loss D: (.+)", line)[0])] *)
Definition loss_d_of (line : str) : result pyfloat :=
  g <- index0 (findall1 loss_d_pattern line) ;; py_float g.

(** The table of one block: the three comprehensions over the lines of
    the body, one after the other, then the data frame. *)
Definition block_table (data_str : str) : result DataFrame :=
  epoch_list <- comprehension epoch_of (split LF data_str) ;;
  loss_g_list <- comprehension loss_g_of (split LF data_str) ;;
  loss_d_list <- comprehension loss_d_of (split LF data_str) ;;
  pd_DataFrame epoch_list loss_g_list loss_d_list.

(** The key of a match: [match[0].strip()] *)
Definition dataset_id_of (m : list str) : str := strip (nth 0 m []).

(** The body of a match: [match[1]] *)
Definition data_str_of (m : list str) : str := nth 1 m [].

(** One turn of the loop over the matches. *)
Definition loop_body (output_dict : gmap str DataFrame) (m : list str)
    : result (gmap str DataFrame) :=
  let dataset_id := dataset_id_of m in
  let data_str := data_str_of m in
  df <- block_table data_str ;;
  Ok (<[dataset_id := df]> output_dict).

(** [for match in matches: ...], from the dictionary [output_dict]. *)
Fixpoint for_matches (matches : list (list str)) (output_dict : gmap str DataFrame)
    : result (gmap str DataFrame) :=
  match matches with
  | [] => Ok output_dict
  | m :: more => d <- loop_body output_dict m ;; for_matches more d
  end.

Definition extract_loss_info_from_stdout (input_str : str)
    : result (gmap str DataFrame) :=
  let matches := findall true block_pattern input_str in
  for_matches matches ∅.

(** Lines of text, joined by line breaks. *)
Definition text (lines : list string) : str := join LF (map py lines).

(** ** The input format

    From the docstring: the output of each run is set between
    ["#START#\n"] and ["#END#"], the line behind the start marker names
    the data set. *)

Definition START : str := py "#START#" ++ [LF].
Definition END : str := py "#END#".

Definition block (hdr body : str) : str := START ++ hdr ++ LF :: body ++ END.

(** Text without [#]: no marker begins in it. *)
Definition quiet (s : str) : bool := negb (contains (py "#") s).

(** A header line: not empty, no line break. *)
Definition header_ok (hdr : str) : bool :=
  negb (length hdr =? 0) && negb (contains [LF] hdr).

(** A body: not empty, and the first end marker that begins in the body
    or right behind it is the one behind it. *)
Definition body_ok (body : str) : bool :=
  negb (length body =? 0) && negb (contains END (body ++ py "#END")).

(** Some line break of [s] has an end marker at least one character
    behind it. *)
Fixpoint lf_before_end (s : str) : bool :=
  match s with
  | [] => false
  | a :: s' => (Ascii.eqb a LF && contains END (tl s')) || lf_before_end s'
  end.

(** An epoch line on which one of the three searches finds nothing. *)
Definition missing_field (line : str) : Prop :=
  findall1 epoch_pattern line = [] \/
  findall1 loss_g_pattern line = [] \/
  findall1 loss_d_pattern line = [].

(** An epoch line on which one of the three extractions raises. *)
Definition malformed (line : str) : Prop :=
  (exists e, epoch_of line = Raise e) \/
  (exists e, loss_g_of line = Raise e) \/
  (exists e, loss_d_of line = Raise e).


(** No extraction on the line raises a [ValueError]: each of the three
    finds its number or finds nothing. *)
Definition no_value_error (line : str) : Prop :=
  (forall msg, epoch_of line <> Raise (ValueError msg)) /\
  (forall msg, loss_g_of line <> Raise (ValueError msg)) /\
  (forall msg, loss_d_of line <> Raise (ValueError msg)).

(** The table of a match can be made. *)
Definition table_ok (m : list str) : Prop :=
  exists df, block_table (data_str_of m) = Ok df.

(** The exception names the data set and shows the line. *)
Definition descriptive (e : exn) (dataset_id line : str) : bool :=
  contains dataset_id (exn_message e) && contains line (exn_message e).

(** A start marker with an end marker somewhere behind it. *)
Fixpoint marker_pair (s : str) : bool :=
  (startswith (py "#START#") s && contains END (skipn 7 s)) ||
  match s with
  | [] => false
  | _ :: s' => marker_pair s'
  end.

(** ** Sample logs *)

Definition d1_body : str :=
  text ["Epoch 0 ... Loss G: 1.5, Loss D: 0.9";
        "Epoch 1 ... Loss G: 1.2, Loss D: 0.8";
        ""].

Definition d1_table : DataFrame :=
  {| Epoch := [0; 1]%Z;
     Loss_G := [FDec false 15 (-1); FDec false 12 (-1)];
     Loss_D := [FDec false 9 (-1); FDec false 8 (-1)] |}.

(** Epoch numbers out of order and repeated, in the layout CTGAN prints. *)
Definition shuffled_body : str :=
  text ["Epoch 3, Loss G:  0.5000,Loss D: -0.2500";
        "Epoch 1, Loss G: -1.2500,Loss D:  0.7500";
        "Epoch 3, Loss G:  2.0000,Loss D:  0.1250";
        ""].


(** An epoch line without its [Loss D:] field. *)
Definition short_line : str := py "Epoch 0 ... Loss G: 1.5,".

Definition short_log : str :=
  text ["#START#"; "D1"; "Epoch 0 ... Loss G: 1.5,"; "#END#"].

(** A block without a body, then a block [D2]. *)
Definition empty_then_d2 : str :=
  text ["#START#"; "D1"; "#END#";
        "#START#"; "D2"; "Epoch 0 ... Loss G: 1.5, Loss D: 0.9"; "#END#"].

(** A block whose header line is empty. *)
Definition empty_header_log : str :=
  text ["#START#"; "";
        "Epoch 0 ... Loss G: 1.5, Loss D: 0.9";
        "Epoch 1 ... Loss G: 1.2, Loss D: 0.8";
        "#END#"].

(** Two blocks under the key [D1]. *)
Definition twice_d1 : str :=
  text ["#START#"; "D1"; "Epoch 7 ... Loss G: 3.0, Loss D: 4.0"; "#END#";
        "#START#"; "D1 ";
        "Epoch 0 ... Loss G: 1.5, Loss D: 0.9";
        "Epoch 1 ... Loss G: 1.2, Loss D: 0.8";
        "#END#"].

(** A good block [A], then a block [B] with a loss that is no number. *)
Definition good_then_bad : str :=
  text ["#START#"; "A"; "Epoch 0 ... Loss G: 1.5, Loss D: 0.9"; "#END#";
        "#START#"; "B"; "Epoch 0 ... Loss G: n/a, Loss D: 0.9"; "#END#"].

(** ** More on the log format *)

(** Where a run of a character class ends: at the end of the text or in
    front of a character outside the class. *)
Definition run_ends (ok : ascii -> bool) (rest : str) : bool :=
  match rest with
  | [] => true
  | c :: _ => negb (ok c)
  end.

(** A block of the log with the text in front of it: separator, header
    line, body. *)
Definition log_block (b : str * str * str) : str :=
  let '(sep, hdr, body) := b in sep ++ block hdr body.

Definition log_block_ok (b : str * str * str) : bool :=
  let '(sep, hdr, body) := b in quiet sep && header_ok hdr && body_ok body.

(** The match the pattern finds for a block. *)
Definition match_of (b : str * str * str) : list str :=
  let '(_, hdr, body) := b in [hdr; body].

(** ** [translate_model_name] *)

Definition model_names : list (str * str) :=
  [(py "lr", py "Logistic Regression");
   (py "knn", py "K-Nearest Neighbor");
   (py "nb", py "Naive Bayes");
   (py "svm", py "SVM");
   (py "rbfsvm", py "SVM-RBF");
   (py "gpc", py "Gaussian Process Classifier");
   (py "mlp", py "Multilayer Perceptron");
   (py "ridge", py "Ridge Classifier");
   (py "rf", py "Random Forest");
   (py "dt", py "Decision Tree Classifier");
   (py "et", py "Extra Trees Classifier");
   (py "qda", py "Quadratic Discriminant Analysis");
   (py "ada", py "Ada Boost Clasifier");
   (py "gbc", py "Gradient Boosting Classifier");
   (py "lda", py "Linear Dicriminant Analysis");
   (py "xgboost", py "Extreme Gradient Boosting");
   (py "lightgbm", py "Light Gradient Boosting Machine")].

(** [d[k]] on a dictionary display whose keys are all different; [None]
    when [k in d] is false. *)
Fixpoint dict_get {V} (k : str) (items : list (str * V)) : option V :=
  match items with
  | [] => None
  | (k', v) :: more => if eq_str k' k then Some v else dict_get k more
  end.

(** The result is the name, or Python's [None]. *)
Definition translate_model_name (model : str) : option str :=
  dict_get model model_names.

(** ** [unravel_metric_report] *)

(** A value of the report: a dictionary (its items, in order) or
    anything else. *)
Inductive report_value (V : Type) : Type :=
| Plain (v : V)
| Inner (items : list (str * V)).
Arguments Plain {V} v.
Arguments Inner {V} items.

(** [f"{key}_{inner_key}"] *)
Definition flat_key (key inner_key : str) : str := key ++ py "_" ++ inner_key.

(** One turn of the outer loop. *)
Definition unravel_entry {V} (flat_dict : gmap str V) (entry : str * report_value V)
    : gmap str V :=
  match entry with
  | (key, Inner items) =>
      fold_left (fun fd '(inner_key, inner_value) =>
                   <[flat_key key inner_key := inner_value]> fd)
                items flat_dict
  | (key, Plain value) => <[key := value]> flat_dict
  end.

(** The report is given by its items, in the order of [report_dict.items()]. *)
Definition unravel_metric_report {V} (report_dict : list (str * report_value V))
    : gmap str V :=
  fold_left unravel_entry report_dict ∅.

(** The assignments to [flat_dict] that an item of the report stands for,
    and those of the whole report, in the order of the loops. *)
Definition entry_writes {V} (entry : str * report_value V) : list (str * V) :=
  match entry with
  | (key, Inner items) => map (fun '(ik, iv) => (flat_key key ik, iv)) items
  | (key, Plain value) => [(key, value)]
  end.

Definition report_writes {V} (report_dict : list (str * report_value V))
    : list (str * V) :=
  concat (map entry_writes report_dict).

(** The assignments [d[k] = v] of a list of pairs, one after the other. *)
Definition assign_all {V} (ws : list (str * V)) (fd : gmap str V) : gmap str V :=
  fold_left (fun fd '(k, v) => <[k := v]> fd) ws fd.

(** ** [convert_and_clean_dict] *)

(** What [convert] returns: an [int], a [float], a [bool], [None] or the
    text itself. *)
Inductive pyvalue : Type :=
| VInt (z : Z)
| VFloat (f : pyfloat)
| VBool (b : bool)
| VNone
| VStr (s : str).

(** The code points below 256 that [str.isdigit] accepts: 0 to 9 and the
    superscripts 2, 3 and 1. *)
Definition isdigit_char (a : ascii) : bool :=
  let n := nat_of_ascii a in
  isdigit a || (n =? 178) || (n =? 179) || (n =? 185).

(** [str.isdigit()] *)
Definition str_isdigit (s : str) : bool :=
  negb (length s =? 0) && forallb isdigit_char s.

(** [s.lstrip(c)] for one character [c]. *)
Fixpoint lstrip_char (c : ascii) (s : str) : str :=
  match s with
  | a :: s' => if Ascii.eqb a c then lstrip_char c s' else s
  | [] => []
  end.

Definition hyphen : ascii := ascii_of_nat 45.

(** [str.lower()] on a code point below 256. *)
Definition lower_char (a : ascii) : ascii :=
  let n := nat_of_ascii a in
  if ((65 <=? n) && (n <=? 90))
     || ((192 <=? n) && (n <=? 222) && negb (n =? 215))
  then ascii_of_nat (n + 32) else a.

Definition str_lower (s : str) : str := map lower_char s.

(** The helper [convert]: only the [ValueError] of [float] is caught. *)
Definition convert (value : str) : result pyvalue :=
  if str_isdigit value then
    z <- py_int value ;; Ok (VInt z)
  else if str_isdigit (lstrip_char hyphen value) then
    z <- py_int value ;; Ok (VInt z)
  else
    match py_float value with
    | Ok f => Ok (VFloat f)
    | Raise (ValueError _) =>
        if eq_str (str_lower value) (py "true") then Ok (VBool true)
        else if eq_str (str_lower value) (py "false") then Ok (VBool false)
        else if eq_str (str_lower value) (py "none") then Ok VNone
        else Ok (VStr value)
    | Raise e => Raise e
    end.

(** [value.strip() != "" and value.strip() != '{}'] *)
Definition keep_value (value : str) : bool :=
  negb (eq_str (strip value) []) && negb (eq_str (strip value) (py "{}")).

(** The loop over [dictionary.items()], from the dictionary
    [cleaned_dict]. *)
Fixpoint clean_items (items : list (str * str)) (cleaned_dict : gmap str pyvalue)
    : result (gmap str pyvalue) :=
  match items with
  | [] => Ok cleaned_dict
  | (key, value) :: more =>
      if keep_value value then
        x <- convert value ;; clean_items more (<[key := x]> cleaned_dict)
      else clean_items more cleaned_dict
  end.

(** The function: the loop from the empty dictionary, then
    [return cleaned_dict].  [dictionary] is given by its items, in the
    order of [dictionary.items()]. *)
Definition convert_and_clean_dict (dictionary : list (str * str))
    : result (gmap str pyvalue) :=
  clean_items dictionary ∅.

(** A hyphen-and-digits text: [n] hyphens in front of the digits [ds]. *)
Definition hyphens (n : nat) (ds : str) : str := repeat hyphen n ++ ds.

(** ** [extract_filenames] and [get_synthetic_filepaths_from_original_data_id] *)

(** [s.endswith(suffix)] *)
Definition endswith (suffix s : str) : bool := startswith (rev suffix) (rev s).

(** [os.path.join(a, b)] of [posixpath], for two parts. *)
Definition os_path_join (a b : str) : str :=
  if startswith (py "/") b then b
  else if (length a =? 0) || endswith (py "/") a then a ++ b
  else a ++ py "/" ++ b.

(** [extract_filenames]; [files] is what [os.listdir(directory)] gave. *)
Definition extract_filenames (files : list str) (directory extension : str)
    (return_relative_path : bool) : list str :=
  let files_filtered := List.filter (endswith extension) files in
  if return_relative_path then map (os_path_join directory) files_filtered
  else files_filtered.

(** The characters that are syntax in a pattern. *)
Definition regex_special (a : ascii) : bool :=
  existsb (Ascii.eqb a) (py ".^$*+?{}[]|()" ++ [ascii_of_nat 92]).

(** [r'SD({})Q\d+_\d+\.csv'.format(original_data_id[1:])], for an id
    whose tail has no character that is syntax in a pattern (for another
    id the pattern is not of this shape: [None]).  Only whether the
    pattern matches is used, so the groups are of no account. *)
Definition regex_rule (original_data_id : str) : option regex :=
  let tail := tl original_data_id in
  if existsb regex_special tail then None
  else Some [Lit (py "SD"); Lit tail; Lit (py "Q"); Group true Digit;
             Lit (py "_"); Group true Digit; Lit (py ".csv")].

(** [re.match(r, s)] is not [None]. *)
Definition re_match (r : regex) (s : str) : bool :=
  match match_here false r [] s with
  | Some _ => true
  | None => false
  end.

(** [get_synthetic_filepaths_from_original_data_id]; [files] is the
    listing of [config['folders']['sd_dir']]. *)
Definition get_synthetic_filepaths_from_original_data_id
    (files : list str) (sd_dir original_data_id : str) : option (list str) :=
  let synthetic_data_files := extract_filenames files sd_dir (py ".csv") false in
  match regex_rule original_data_id with
  | Some regex_rule => Some (List.filter (re_match regex_rule) synthetic_data_files)
  | None => None
  end.

(** The name of a synthetic data file: [SD<tail>Q<n>_<m>.csv<more>]. *)
Definition synthetic_name (tail n m more : str) : str :=
  py "SD" ++ tail ++ py "Q" ++ n ++ py "_" ++ m ++ py ".csv" ++ more.

(** * Properties *)

(** ** Text *)

Lemma after_literal_app p s : after_literal p (p ++ s) = Some s.
Proof.
  induction p as [|a p IH]; simpl; [reflexivity|].
  now rewrite Ascii.eqb_refl.
Qed.

Lemma after_literal_inv p : forall s s', after_literal p s = Some s' -> s = p ++ s'.
Proof.
  induction p as [|a p IH]; intros s s' H; simpl in *.
  - now injection H.
  - destruct s as [|b s]; [discriminate|].
    destruct (Ascii.eqb a b) eqn:E; [|discriminate].
    apply Ascii.eqb_eq in E. subst b. f_equal. now apply IH.
Qed.

Lemma after_literal_startswith p : forall s,
  startswith p s = false -> after_literal p s = None.
Proof.
  induction p as [|a p IH]; intros s H; simpl in *; [discriminate|].
  destruct s as [|b s]; [reflexivity|].
  destruct (Ascii.eqb a b); simpl in H; [now apply IH | reflexivity].
Qed.

Lemma startswith_app p s : startswith p (p ++ s) = true.
Proof.
  induction p as [|a p IH]; simpl; [reflexivity|].
  now rewrite Ascii.eqb_refl.
Qed.

Lemma startswith_long p : forall x y,
  length p <= length x -> startswith p (x ++ y) = startswith p x.
Proof.
  induction p as [|a p IH]; intros x y H; [reflexivity|].
  destruct x as [|b x]; simpl in *; [lia|].
  rewrite IH by lia. reflexivity.
Qed.

Lemma contains_cons p a s :
  contains p (a :: s) = false -> startswith p (a :: s) = false /\ contains p s = false.
Proof. simpl. intros H. now apply orb_false_iff in H. Qed.

Lemma contains_startswith p s : contains p s = false -> startswith p s = false.
Proof.
  destruct s; simpl; intros H; apply orb_false_iff in H; tauto.
Qed.

Lemma contains_app_r p x : forall y, contains p (x ++ y) = false -> contains p y = false.
Proof.
  induction x as [|a x IH]; intros y H; [exact H|].
  apply IH. now apply (contains_cons p a).
Qed.

Lemma contains_here p s : startswith p s = true -> contains p s = true.
Proof. intros H. destruct s; simpl; rewrite H; reflexivity. Qed.

Lemma contains_app p x y : contains p (x ++ p ++ y) = true.
Proof.
  induction x as [|a x IH]; simpl.
  - apply contains_here, startswith_app.
  - rewrite IH. apply orb_true_r.
Qed.

(** ** Quantifiers *)

Section Plus.
Context {R : Type} (ok : ascii -> bool) (k : str -> str -> option R).

(** A lazy run stops at the first split the continuation accepts. *)
Lemma plus_lazy_exact g : forall acc rest r,
  g <> [] ->
  forallb ok g = true ->
  (forall g1 g2, g = g1 ++ g2 -> g1 <> [] -> g2 <> [] ->
     k (acc ++ g1) (g2 ++ rest) = None) ->
  k (acc ++ g) rest = Some r ->
  plus_lazy ok k acc (g ++ rest) = Some r.
Proof.
  induction g as [|a g IH]; intros acc rest r Hne Hok Hshort Hk; [congruence|].
  simpl in Hok. apply andb_true_iff in Hok as [Ha Hok].
  simpl. rewrite Ha.
  destruct g as [|b g].
  - simpl. now rewrite Hk.
  - rewrite (Hshort [a] (b :: g)) by (reflexivity || discriminate).
    apply IH; [discriminate | exact Hok | | now rewrite <- app_assoc].
    intros g1 g2 Hg H1 H2. rewrite <- app_assoc. simpl.
    apply (Hshort (a :: g1) g2); [now rewrite Hg | discriminate | exact H2].
Qed.

(** Whatever a lazy run returns, the continuation returned it on some
    split of the text with a run that is not empty. *)
Lemma plus_lazy_inv s : forall acc r,
  plus_lazy ok k acc s = Some r ->
  exists g rest, g <> [] /\ s = g ++ rest /\ k (acc ++ g) rest = Some r.
Proof.
  induction s as [|a s IH]; intros acc r H; simpl in H; [discriminate|].
  destruct (ok a); [|discriminate].
  destruct (k (acc ++ [a]) s) eqn:Hk.
  - injection H as ->. exists [a], s. repeat split; [discriminate | exact Hk].
  - apply IH in H as (g & rest & Hne & -> & Hg).
    exists (a :: g), rest. rewrite <- app_assoc in Hg.
    repeat split; [discriminate | exact Hg].
Qed.

Lemma plus_greedy_inv s : forall acc r,
  plus_greedy ok k acc s = Some r ->
  exists g rest, g <> [] /\ s = g ++ rest /\ k (acc ++ g) rest = Some r.
Proof.
  induction s as [|a s IH]; intros acc r H; simpl in H; [discriminate|].
  destruct (ok a); [|discriminate].
  destruct (plus_greedy ok k (acc ++ [a]) s) eqn:Hrec.
  - injection H as ->. apply IH in Hrec as (g & rest & Hne & -> & Hg).
    exists (a :: g), rest. rewrite <- app_assoc in Hg.
    repeat split; [discriminate | exact Hg].
  - exists [a], s. repeat split; [discriminate | exact H].
Qed.

(** A lazy run fails when the continuation refuses every split. *)
Lemma plus_lazy_none s : forall acc,
  (forall g rest, s = g ++ rest -> g <> [] -> k (acc ++ g) rest = None) ->
  plus_lazy ok k acc s = None.
Proof.
  intros acc H. destruct (plus_lazy ok k acc s) eqn:E; [|reflexivity].
  apply plus_lazy_inv in E as (g & rest & Hne & Hs & Hk).
  now rewrite (H g rest Hs Hne) in Hk.
Qed.
End Plus.

(** ** The scan *)

Section Scan.
Variables (dotall : bool) (r : regex).

Lemma scan_skip x : forall s, scan dotall r (length x) (x ++ s) = scan dotall r 0 s.
Proof. induction x as [|a x IH]; intros s; simpl; [destruct s|]; auto. Qed.

(** Behind a match that is not empty the scan goes on at its end. *)
Lemma findall_match x gs rest :
  x <> [] ->
  match_here dotall r [] (x ++ rest) = Some (gs, rest) ->
  findall dotall r (x ++ rest) = gs :: findall dotall r rest.
Proof.
  intros Hx Hm. unfold findall.
  destruct x as [|a x]; [congruence|].
  change (scan dotall r 0 ((a :: x) ++ rest)) with
    (match match_here dotall r [] ((a :: x) ++ rest) with
     | Some (groups, rest') =>
         groups :: scan dotall r (length ((a :: x) ++ rest) - length rest' - 1) (x ++ rest)
     | None => scan dotall r 0 (x ++ rest)
     end).
  rewrite Hm. f_equal.
  replace (length ((a :: x) ++ rest) - length rest - 1) with (length x)
    by (simpl; rewrite length_app; lia).
  apply scan_skip.
Qed.

(** Where nothing matches the scan moves on by one character. *)
Lemma findall_no_match a s :
  match_here dotall r [] (a :: s) = None ->
  findall dotall r (a :: s) = findall dotall r s.
Proof. intros H. unfold findall. simpl. now rewrite H. Qed.

Lemma findall_none s :
  (forall x t, s = x ++ t -> match_here dotall r [] t = None) ->
  findall dotall r s = [].
Proof.
  induction s as [|a s IH]; intros H.
  - unfold findall. simpl. now rewrite (H [] []).
  - rewrite findall_no_match by now apply (H []).
    apply IH. intros x t ->. now apply (H (a :: x)).
Qed.

(** Every match the scan reports is a match at some position. *)
Lemma scan_in gs s : forall skip,
  In gs (scan dotall r skip s) ->
  exists x t rest, s = x ++ t /\ match_here dotall r [] t = Some (gs, rest).
Proof.
  induction s as [|a s IH]; intros skip H.
  - destruct skip; simpl in H; [|contradiction].
    destruct (match_here dotall r [] []) as [[g rest]|] eqn:E; [|contradiction].
    destruct H as [<-|[]]. now exists [], [], rest.
  - destruct skip as [|n].
    + simpl in H.
      destruct (match_here dotall r [] (a :: s)) as [[g rest]|] eqn:E.
      * destruct H as [<-|H]; [now exists [], (a :: s), rest|].
        apply IH in H as (x & t & rest' & -> & Hm).
        now exists (a :: x), t, rest'.
      * apply IH in H as (x & t & rest' & -> & Hm).
        now exists (a :: x), t, rest'.
    + simpl in H. apply IH in H as (x & t & rest' & -> & Hm).
      now exists (a :: x), t, rest'.
Qed.
End Scan.

(** ** The block pattern *)

Lemma class_ok_dotall a : class_ok true Dot a = true.
Proof. reflexivity. Qed.

Lemma forallb_dotall g : forallb (class_ok true Dot) g = true.
Proof. induction g; simpl; auto. Qed.

(** A match of the block pattern has the markers around two groups that
    are not empty. *)
Lemma match_block_inv t gs rest :
  match_here true block_pattern [] t = Some (gs, rest) ->
  exists g1 g2, gs = [g1; g2] /\ g1 <> [] /\ g2 <> [] /\
    t = START ++ g1 ++ LF :: g2 ++ END ++ rest.
Proof.
  unfold block_pattern. cbn [match_here]. intros H.
  destruct (after_literal (py "#START#" ++ [LF]) t) as [u|] eqn:E1; [|discriminate].
  apply after_literal_inv in E1. subst t.
  apply plus_lazy_inv in H as (g1 & u1 & Hg1 & -> & H).
  destruct (after_literal [LF] u1) as [v|] eqn:E2; [|discriminate].
  apply after_literal_inv in E2. subst u1.
  apply plus_lazy_inv in H as (g2 & v1 & Hg2 & -> & H).
  destruct (after_literal (py "#END#") v1) as [w|] eqn:E3; [|discriminate].
  apply after_literal_inv in E3. subst v1.
  injection H as <- <-.
  exists g1, g2. repeat split; auto.
Qed.

Lemma header_ok_inv hdr :
  header_ok hdr = true -> hdr <> [] /\ contains [LF] hdr = false.
Proof.
  unfold header_ok. intros H. apply andb_true_iff in H as [H1 H2].
  apply negb_true_iff in H1, H2. split; [|exact H2].
  intros ->. discriminate.
Qed.

Lemma body_ok_inv body :
  body_ok body = true -> body <> [] /\ contains END (body ++ py "#END") = false.
Proof.
  unfold body_ok. intros H. apply andb_true_iff in H as [H1 H2].
  apply negb_true_iff in H1, H2. split; [|exact H2].
  intros ->. discriminate.
Qed.

(** No line break: the literal ["\n"] does not follow. *)
Lemma no_lf_here c s t :
  contains [LF] (c :: s) = false -> after_literal [LF] ((c :: s) ++ t) = None.
Proof.
  intros H. apply contains_startswith in H.
  cbn [startswith] in H. rewrite andb_true_r in H.
  cbn [app after_literal]. now rewrite H.
Qed.

(** The end marker does not begin inside a body. *)
Lemma no_end_inside g1 g2 rest :
  g2 <> [] ->
  contains END ((g1 ++ g2) ++ py "#END") = false ->
  after_literal END (g2 ++ END ++ rest) = None.
Proof.
  intros Hne H. apply after_literal_startswith.
  rewrite <- app_assoc in H. apply contains_app_r, contains_startswith in H.
  change (END ++ rest) with (py "#END" ++ py "#" ++ rest).
  rewrite app_assoc, startswith_long; [exact H|].
  rewrite length_app. destruct g2; [congruence|]. simpl. lia.
Qed.

(** At the start of a well-formed block the pattern matches exactly the
    block, whatever follows it. *)
Lemma match_block hdr body rest :
  header_ok hdr = true -> body_ok body = true ->
  match_here true block_pattern [] (block hdr body ++ rest) = Some ([hdr; body], rest).
Proof.
  intros Hh Hb.
  apply header_ok_inv in Hh as [Hhne Hlf]. apply body_ok_inv in Hb as [Hbne Hend].
  unfold block, block_pattern. cbn [match_here].
  rewrite <- !app_assoc. fold START. rewrite after_literal_app.
  apply plus_lazy_exact; [exact Hhne | apply forallb_dotall | |].
  - intros g1 g2 -> _ Hg2. cbn [match_here]. destruct g2 as [|c g2]; [congruence|].
    rewrite no_lf_here; [reflexivity|]. now apply contains_app_r in Hlf.
  - cbn [match_here app after_literal]. rewrite Ascii.eqb_refl.
    rewrite <- app_assoc.
    apply plus_lazy_exact; [exact Hbne | apply forallb_dotall | |].
    + intros g1 g2 -> _ Hg2. cbn [match_here].
      now rewrite (no_end_inside g1 g2).
    + cbn [match_here]. fold END. now rewrite after_literal_app.
Qed.

Lemma quiet_cons a s :
  quiet (a :: s) = true -> Ascii.eqb "#" a = false /\ quiet s = true.
Proof.
  unfold quiet. intros H. apply negb_true_iff, contains_cons in H as [H1 H2].
  unfold py in H1. cbn [list_ascii_of_string startswith] in H1.
  rewrite andb_true_r in H1. now rewrite H2.
Qed.

Lemma match_block_not_hash a s :
  Ascii.eqb "#" a = false -> match_here true block_pattern [] (a :: s) = None.
Proof.
  intros H. unfold block_pattern, py.
  cbn [match_here list_ascii_of_string app after_literal]. now rewrite H.
Qed.

(** The scan passes text without [#]. *)
Lemma findall_quiet sep s :
  quiet sep = true ->
  findall true block_pattern (sep ++ s) = findall true block_pattern s.
Proof.
  induction sep as [|a sep IH]; intros H; [reflexivity|].
  apply quiet_cons in H as [Ha H]. simpl.
  rewrite findall_no_match by now apply match_block_not_hash.
  now apply IH.
Qed.

(** A well-formed block is found, and the scan goes on behind it. *)
Lemma findall_block sep hdr body rest :
  quiet sep = true -> header_ok hdr = true -> body_ok body = true ->
  findall true block_pattern (sep ++ block hdr body ++ rest)
  = [hdr; body] :: findall true block_pattern rest.
Proof.
  intros Hs Hh Hb. rewrite findall_quiet by exact Hs.
  apply findall_match; [|now apply match_block].
  unfold block, START. discriminate.
Qed.

(** Without a start marker there is no match. *)
Lemma findall_no_start s :
  contains START s = false -> findall true block_pattern s = [].
Proof.
  intros H. apply findall_none. intros x t ->.
  apply contains_app_r, contains_startswith in H.
  unfold block_pattern. cbn [match_here]. fold START.
  now rewrite after_literal_startswith.
Qed.

(** ** Comprehensions and the table of a block *)

Section Comprehension.
Context {A : Type} (f : str -> result A).

(** Only the epoch lines count. *)
Lemma comprehension_filter lines :
  comprehension f lines = comprehension f (List.filter is_epoch_line lines).
Proof.
  induction lines as [|line lines IH]; [reflexivity|].
  simpl. destruct (is_epoch_line line) eqn:E; [|exact IH].
  simpl. rewrite E, IH. reflexivity.
Qed.


Lemma comprehension_raises lines line e :
  In line lines -> is_epoch_line line = true -> f line = Raise e ->
  exists e', comprehension f lines = Raise e'.
Proof.
  induction lines as [|l lines IH]; intros Hin Hep Hf; [contradiction|].
  simpl. destruct Hin as [->|Hin].
  - rewrite Hep, Hf. now exists e.
  - destruct (IH Hin Hep Hf) as [e' He'].
    destruct (is_epoch_line l); [|now exists e'].
    destruct (f l) as [x|e0]; simpl; [|now exists e0].
    rewrite He'. now exists e'.
Qed.
End Comprehension.

Lemma comprehension_length {A} (f : str -> result A) lines : forall xs,
  comprehension f lines = Ok xs ->
  length xs = length (List.filter is_epoch_line lines).
Proof.
  induction lines as [|line lines IH]; intros xs H; simpl in H.
  - now injection H as <-.
  - simpl. destruct (is_epoch_line line); [|now apply IH].
    destruct (f line) as [x|e]; simpl in H; [|discriminate].
    destruct (comprehension f lines) as [xs'|e]; simpl in H; [|discriminate].
    injection H as <-. simpl. f_equal. now apply IH.
Qed.




(** An epoch line on which an extraction raises makes the table of the
    body raise. *)
Lemma block_table_malformed data_str line :
  In line (split LF data_str) -> is_epoch_line line = true -> malformed line ->
  exists e, block_table data_str = Raise e.
Proof.
  intros Hin Hep Hbad. unfold block_table.
  destruct (comprehension epoch_of (split LF data_str)) as [es|e] eqn:Ee;
    [|now exists e].
  destruct (comprehension loss_g_of (split LF data_str)) as [gs|e] eqn:Eg;
    [|now exists e].
  destruct (comprehension loss_d_of (split LF data_str)) as [ds|e] eqn:Ed;
    [|now exists e].
  exfalso. destruct Hbad as [[e H]|[[e H]|[e H]]].
  - destruct (comprehension_raises _ _ _ _ Hin Hep H). congruence.
  - destruct (comprehension_raises _ _ _ _ Hin Hep H). congruence.
  - destruct (comprehension_raises _ _ _ _ Hin Hep H). congruence.
Qed.

Lemma missing_field_malformed line : missing_field line -> malformed line.
Proof.
  unfold missing_field, malformed, epoch_of, loss_g_of, loss_d_of.
  intros [H|[H|H]]; rewrite H; simpl; eauto.
Qed.

(** ** The loop over the matches *)

Lemma for_matches_app ms1 : forall ms2 d,
  for_matches (ms1 ++ ms2) d = (d' <- for_matches ms1 d ;; for_matches ms2 d').
Proof.
  induction ms1 as [|m ms1 IH]; intros ms2 d; simpl; [reflexivity|].
  destruct (loop_body d m); simpl; [apply IH | reflexivity].
Qed.

Lemma for_matches_ok ms : forall d,
  Forall table_ok ms -> exists d', for_matches ms d = Ok d'.
Proof.
  induction ms as [|m ms IH]; intros d H; simpl; [now exists d|].
  inversion H as [|? ? [df Hdf] Hms]; subst.
  unfold loop_body. rewrite Hdf. simpl. now apply IH.
Qed.

(** Blocks under other keys leave a key alone. *)
Lemma for_matches_other_keys k ms : forall d d',
  Forall (fun m => dataset_id_of m <> k) ms ->
  for_matches ms d = Ok d' -> d' !! k = d !! k.
Proof.
  induction ms as [|m ms IH]; intros d d' Hk H; simpl in H.
  - now injection H as <-.
  - inversion Hk as [|? ? Hm Hms]; subst.
    unfold loop_body in H.
    destruct (block_table (data_str_of m)) as [df|e]; simpl in H; [|discriminate].
    rewrite (IH _ _ Hms H). now apply lookup_insert_ne.
Qed.

(** The first block whose table raises ends the loop with its exception. *)
Lemma for_matches_first_raise ms1 m ms2 e : forall d,
  Forall table_ok ms1 -> block_table (data_str_of m) = Raise e ->
  for_matches (ms1 ++ m :: ms2) d = Raise e.
Proof.
  intros d Hok He. rewrite for_matches_app.
  destruct (for_matches_ok ms1 d Hok) as [d' ->]. simpl.
  unfold loop_body. now rewrite He.
Qed.

Lemma for_matches_raises ms m e : forall d,
  In m ms -> block_table (data_str_of m) = Raise e ->
  exists e', for_matches ms d = Raise e'.
Proof.
  induction ms as [|m0 ms IH]; intros d Hin He; [contradiction|].
  simpl. unfold loop_body at 1.
  destruct (block_table (data_str_of m0)) as [df|e0] eqn:E0; simpl.
  - destruct Hin as [->|Hin]; [congruence | now apply IH].
  - now exists e0.
Qed.

(** ** Lines *)

Lemma split_line l :
  contains [LF] l = false -> split LF l = [l].
Proof.
  induction l as [|a l IH]; intros H; [reflexivity|].
  apply contains_cons in H as [Ha Hl].
  cbn [startswith] in Ha. rewrite andb_true_r, Ascii.eqb_sym in Ha.
  cbn [split]. now rewrite Ha, (IH Hl).
Qed.

Lemma split_line_more l s :
  contains [LF] l = false -> split LF (l ++ LF :: s) = l :: split LF s.
Proof.
  induction l as [|a l IH]; intros H.
  - cbn [app split]. now rewrite Ascii.eqb_refl.
  - apply contains_cons in H as [Ha Hl].
    cbn [startswith] in Ha. rewrite andb_true_r, Ascii.eqb_sym in Ha.
    cbn [app split]. now rewrite Ha, (IH Hl).
Qed.

(** Splitting undoes joining when no line holds a line break. *)
Lemma split_join l lines :
  Forall (fun l => contains [LF] l = false) (l :: lines) ->
  split LF (join LF (l :: lines)) = l :: lines.
Proof.
  revert l. induction lines as [|l' lines IH]; intros l H.
  - inversion H; subst. now apply split_line.
  - inversion H as [|? ? Hl Hrest]; subst.
    change (join LF (l :: l' :: lines)) with (l ++ LF :: join LF (l' :: lines)).
    rewrite split_line_more by exact Hl. now rewrite IH.
Qed.

Lemma epoch_lines_join lines :
  Forall (fun l => contains [LF] l = false) lines ->
  List.filter is_epoch_line (split LF (join LF lines)) = List.filter is_epoch_line lines.
Proof.
  destruct lines as [|l lines]; intros H; [reflexivity|].
  now rewrite split_join.
Qed.

(** The table of a body depends on its epoch lines only. *)
Lemma block_table_epoch_lines s1 s2 :
  List.filter is_epoch_line (split LF s1) = List.filter is_epoch_line (split LF s2) ->
  block_table s1 = block_table s2.
Proof.
  intros H. unfold block_table.
  rewrite (comprehension_filter epoch_of (split LF s1)),
    (comprehension_filter loss_g_of (split LF s1)),
    (comprehension_filter loss_d_of (split LF s1)), H,
    <- (comprehension_filter epoch_of), <- (comprehension_filter loss_g_of),
    <- (comprehension_filter loss_d_of).
  reflexivity.
Qed.

(** ** White space *)

Lemma lstrip_spaces s : forallb isspace s = true -> lstrip s = [].
Proof.
  induction s as [|a s IH]; simpl; [reflexivity|].
  intros H. apply andb_true_iff in H as [Ha Hs]. now rewrite Ha, IH.
Qed.

Lemma strip_spaces s : forallb isspace s = true -> strip s = [].
Proof. intros H. unfold strip. now rewrite lstrip_spaces. Qed.

(** ** Where the block pattern cannot match *)

Lemma lf_before_end_suffix x : forall s,
  lf_before_end (x ++ s) = false -> lf_before_end s = false.
Proof.
  induction x as [|a x IH]; intros s H; [exact H|].
  cbn [app lf_before_end] in H. apply orb_false_iff in H as [_ H]. now apply IH.
Qed.

Lemma lf_before_end_at x : forall y,
  lf_before_end (x ++ LF :: y) = false -> contains END (tl y) = false.
Proof.
  intros y H. apply lf_before_end_suffix in H.
  cbn [lf_before_end] in H. apply orb_false_iff in H as [H _].
  now rewrite Ascii.eqb_refl in H.
Qed.

Lemma lf_before_end_no_end s : contains END s = false -> lf_before_end s = false.
Proof.
  induction s as [|a s IH]; intros H; [reflexivity|].
  apply contains_cons in H as [_ H]. cbn [lf_before_end].
  rewrite (IH H), orb_false_r.
  destruct s as [|b s]; [apply andb_false_r|].
  apply contains_cons in H as [_ H]. cbn [tl]. rewrite H. apply andb_false_r.
Qed.

Lemma lf_before_end_line l s :
  contains [LF] l = false -> lf_before_end (l ++ s) = lf_before_end s.
Proof.
  induction l as [|a l IH]; intros H; [reflexivity|].
  apply contains_cons in H as [Ha Hl].
  cbn [startswith] in Ha. rewrite andb_true_r, Ascii.eqb_sym in Ha.
  cbn [app lf_before_end]. now rewrite Ha, (IH Hl).
Qed.

(** The second group and the end marker find no place in [s] when no end
    marker begins behind the first character of [s]. *)
Lemma body_group_none (hdr : str) acc s :
  contains END (tl s) = false ->
  plus_lazy (class_ok true Dot)
    (fun cap rest => match_here true [Lit (py "#END#")] ([hdr] ++ [cap]) rest)
    acc s = None.
Proof.
  intros H. apply plus_lazy_none. intros g rest -> Hg.
  destruct g as [|c g]; [congruence|]. cbn [app tl] in H.
  apply contains_app_r, contains_startswith in H.
  cbn [match_here]. fold END. now rewrite after_literal_startswith.
Qed.

(** Behind a start marker the pattern fails when no line break, from the
    second character on, has an end marker at least one character behind
    it. *)
Lemma match_block_none u :
  lf_before_end (tl u) = false ->
  match_here true block_pattern [] (START ++ u) = None.
Proof.
  intros H. unfold block_pattern. cbn [match_here]. fold START.
  rewrite after_literal_app. apply plus_lazy_none. intros g rest -> Hg.
  destruct g as [|c g]; [congruence|]. cbn [app tl] in H.
  cbn [match_here app].
  destruct (after_literal [LF] rest) as [y|] eqn:E; [|reflexivity].
  apply after_literal_inv in E. subst rest. cbn [app] in H.
  apply body_group_none. now apply lf_before_end_at in H.
Qed.

Lemma findall_no_body s :
  lf_before_end s = false -> findall true block_pattern s = [].
Proof.
  intros H. apply findall_none. intros x t ->.
  apply lf_before_end_suffix in H.
  destruct (after_literal START t) as [u|] eqn:E.
  - apply after_literal_inv in E. subst t. apply match_block_none.
    apply lf_before_end_suffix in H.
    destruct u as [|c u]; [reflexivity|].
    now apply (lf_before_end_suffix [c]) in H.
  - unfold block_pattern. cbn [match_here]. fold START. now rewrite E.
Qed.

(** When the pattern fails at a start marker, the scan passes the marker. *)
Lemma findall_past_start u :
  match_here true block_pattern [] (START ++ u) = None ->
  findall true block_pattern (START ++ u) = findall true block_pattern u.
Proof.
  intros H. unfold START, py in *.
  cbn [list_ascii_of_string app] in *.
  rewrite findall_no_match by exact H.
  do 5 (rewrite findall_no_match by (apply match_block_not_hash; reflexivity)).
  rewrite findall_no_match by reflexivity.
  rewrite findall_no_match by (apply match_block_not_hash; reflexivity).
  reflexivity.
Qed.

(** A block with an empty body, and no end marker behind its own: the
    scan finds nothing from the block on. *)
Lemma findall_empty_body hdr post :
  contains [LF] hdr = false ->
  contains END (py "END#" ++ post) = false ->
  findall true block_pattern (START ++ hdr ++ LF :: END ++ post) = [].
Proof.
  intros Hh Hp.
  assert (Hq : lf_before_end (hdr ++ LF :: END ++ post) = false).
  { rewrite lf_before_end_line by exact Hh.
    cbn [lf_before_end]. change (tl (END ++ post)) with (py "END#" ++ post).
    rewrite Hp, andb_false_r. cbn [orb].
    rewrite lf_before_end_line by reflexivity.
    apply lf_before_end_no_end. now apply contains_app_r in Hp. }
  rewrite findall_past_start.
  - now apply findall_no_body.
  - apply match_block_none.
    destruct hdr as [|c hdr]; [|now apply (lf_before_end_suffix [c]) in Hq].
    cbn [app tl]. cbn [app lf_before_end] in Hq.
    now apply orb_false_iff in Hq as [_ Hq].
Qed.

(** A match of the block pattern begins a marker pair. *)
Lemma marker_pair_suffix x : forall s,
  marker_pair (x ++ s) = false -> marker_pair s = false.
Proof.
  induction x as [|a x IH]; intros s H; [exact H|].
  cbn [app marker_pair] in H. apply orb_false_iff in H as [_ H]. now apply IH.
Qed.

Lemma marker_pair_here s :
  startswith (py "#START#") s = true -> contains END (skipn 7 s) = true ->
  marker_pair s = true.
Proof. intros H1 H2. destruct s; cbn [marker_pair]; now rewrite H1, H2. Qed.

Lemma marker_pair_match t gs rest :
  match_here true block_pattern [] t = Some (gs, rest) -> marker_pair t = true.
Proof.
  intros H. apply match_block_inv in H as (g1 & g2 & _ & _ & _ & ->).
  unfold START. rewrite <- app_assoc.
  apply marker_pair_here; [apply startswith_app|].
  change (skipn 7 (py "#START#" ++ [LF] ++ g1 ++ LF :: g2 ++ END ++ rest))
    with (LF :: g1 ++ LF :: g2 ++ END ++ rest).
  replace (LF :: g1 ++ LF :: g2 ++ END ++ rest)
    with ((LF :: g1 ++ LF :: g2) ++ END ++ rest)
    by (cbn [app]; now rewrite <- app_assoc).
  apply contains_app.
Qed.

(** Keys are never removed, and every visited block leaves its key. *)
Lemma for_matches_keys ms : forall d d',
  for_matches ms d = Ok d' ->
  (forall k, is_Some (d !! k) -> is_Some (d' !! k)) /\
  Forall (fun m => is_Some (d' !! dataset_id_of m)) ms.
Proof.
  induction ms as [|m ms IH]; intros d d' H; simpl in H.
  - injection H as <-. split; [auto | constructor].
  - unfold loop_body in H.
    destruct (block_table (data_str_of m)) as [df|e]; simpl in H; [|discriminate].
    destruct (IH _ _ H) as [Hkeep Hall]. split.
    + intros k Hk. apply Hkeep. rewrite lookup_insert_is_Some. 
      destruct (decide (dataset_id_of m = k)); auto.
    + constructor; [|exact Hall].
      apply Hkeep. rewrite lookup_insert_eq. eauto.
Qed.

(** ** One block in a log *)

(** A log with one well-formed block, text without [#] before it and no
    start marker behind it: the dictionary has the key of the block and
    the table of its body. *)
Lemma extract_single_block sep hdr body post df :
  quiet sep = true -> header_ok hdr = true -> body_ok body = true ->
  contains START post = false ->
  block_table body = Ok df ->
  extract_loss_info_from_stdout (sep ++ block hdr body ++ post)
  = Ok {[ strip hdr := df ]}.
Proof.
  intros Hs Hh Hb Hp Hdf. unfold extract_loss_info_from_stdout.
  rewrite findall_block by assumption. rewrite findall_no_start by exact Hp.
  simpl. unfold loop_body, data_str_of, dataset_id_of. simpl.
  rewrite Hdf. simpl. now rewrite insert_empty.
Qed.

(** * The claims *)

(** C1. A log whose only block has the header line [D1] and the two
    epoch lines of the specification in its body gives the dictionary
    with the single key ["D1"], and its table has the rows (0, 1.5, 0.9)
    and (1, 1.2, 0.8), in that order, under Epoch, Loss_G and Loss_D. *)
Theorem single_block_D1 sep post :
  quiet sep = true -> contains START post = false ->
  extract_loss_info_from_stdout (sep ++ block (py "D1") d1_body ++ post)
  = Ok {[ py "D1" := d1_table ]} /\
  rows d1_table
  = [(0%Z, FDec false 15 (-1), FDec false 9 (-1));
     (1%Z, FDec false 12 (-1), FDec false 8 (-1))].
Proof.
  intros Hs Hp. split; [|reflexivity].
  change (py "D1") with (strip (py "D1")) at 2.
  apply extract_single_block; try assumption; vm_compute; reflexivity.
Qed.

Lemma single_block_D1_witness :
  extract_loss_info_from_stdout
    (text ["training"; ""] ++ block (py "D1") d1_body ++ [LF])
  = Ok {[ py "D1" := d1_table ]} /\
  rows d1_table
  = [(0%Z, FDec false 15 (-1), FDec false 9 (-1));
     (1%Z, FDec false 12 (-1), FDec false 8 (-1))].
Proof.
  apply (single_block_D1 (text ["training"; ""]) [LF]); vm_compute; reflexivity.
Defined.

(** C2, the claim as stated fails: on a log whose block [D1] has an
    epoch line without [Loss D:], the call raises [IndexError], and the
    text of that exception names neither the data set nor the line. *)
Lemma short_log_error_not_descriptive :
  extract_loss_info_from_stdout short_log = Raise IndexError /\
  descriptive IndexError (py "D1") short_line = false /\
  contains (py "D1") (exn_message IndexError) = false /\
  contains short_line (exn_message IndexError) = false.
Proof. vm_compute. auto. Qed.

(** The text of [IndexError] has no [E]: no epoch line stands in it. *)
Lemma epoch_line_not_in_index_error line :
  is_epoch_line line = true -> contains line (exn_message IndexError) = false.
Proof.
  unfold is_epoch_line. intros H.
  destruct line as [|a line]; [discriminate|].
  unfold py in H. cbn [list_ascii_of_string startswith] in H.
  apply andb_true_iff in H as [Ha _]. apply Ascii.eqb_eq in Ha. subst a.
  reflexivity.
Qed.

(** When no epoch line can raise a [ValueError], whatever a
    comprehension raises is the [IndexError] of an empty search. *)
Lemma comprehension_index_error {A} (f : str -> result A) lines :
  (forall l, In l lines -> is_epoch_line l = true ->
     forall msg, f l <> Raise (ValueError msg)) ->
  forall e, comprehension f lines = Raise e -> e = IndexError.
Proof.
  induction lines as [|line lines IH]; intros Hno e H; simpl in H; [discriminate|].
  assert (Hrest : forall l, In l lines -> is_epoch_line l = true ->
            forall msg, f l <> Raise (ValueError msg))
    by (intros l Hl; apply Hno; now right).
  destruct (is_epoch_line line) eqn:Ep; [|now apply IH].
  destruct (f line) as [x|e0] eqn:Ef; simpl in H.
  - destruct (comprehension f lines) as [xs|e1] eqn:Ec; simpl in H; [discriminate|].
    injection H as <-. now apply IH.
  - injection H as <-. destruct e0 as [|msg]; [reflexivity|].
    now destruct (Hno line (or_introl eq_refl) Ep msg).
Qed.

Lemma block_table_index_error data_str line :
  In line (split LF data_str) -> is_epoch_line line = true -> missing_field line ->
  (forall l, In l (split LF data_str) -> is_epoch_line l = true -> no_value_error l) ->
  block_table data_str = Raise IndexError.
Proof.
  intros Hin Hep Hmiss Hno.
  destruct (block_table_malformed _ _ Hin Hep (missing_field_malformed _ Hmiss))
    as [e He].
  rewrite He. f_equal. unfold block_table in He.
  destruct (comprehension epoch_of (split LF data_str)) as [es|e1] eqn:E1; simpl in He.
  - destruct (comprehension loss_g_of (split LF data_str)) as [gs|e2] eqn:E2;
      simpl in He.
    + destruct (comprehension loss_d_of (split LF data_str)) as [ds|e3] eqn:E3;
        simpl in He.
      * exfalso. unfold pd_DataFrame in He.
        rewrite (comprehension_length _ _ _ E1), (comprehension_length _ _ _ E2),
          (comprehension_length _ _ _ E3), !Nat.eqb_refl in He. discriminate.
      * injection He as <-. apply (comprehension_index_error loss_d_of _) in E3;
          [exact E3|]. intros l Hl Hl'. now apply (Hno l Hl Hl').
    + injection He as <-. apply (comprehension_index_error loss_g_of _) in E2;
        [exact E2|]. intros l Hl Hl'. now apply (Hno l Hl Hl').
  - injection He as <-. apply (comprehension_index_error epoch_of _) in E1;
      [exact E1|]. intros l Hl Hl'. now apply (Hno l Hl Hl').
Qed.

(** C2, amended. Whenever the body of a block has an epoch line on
    which one of the three searches finds nothing, the call raises an
    exception: no dictionary, and so no table with a missing or shifted
    value, is returned.  The exception is Python's own.  When the
    blocks before that block have their tables and no extraction on an
    epoch line of the block raises a [ValueError], it is the
    [IndexError] of the empty search, and the text of that exception
    never shows the line, so it never both names the data set and shows
    the line. *)
Theorem missing_field_raises input (m : list str) line :
  In m (findall true block_pattern input) ->
  In line (split LF (data_str_of m)) ->
  is_epoch_line line = true ->
  missing_field line ->
  (exists e, extract_loss_info_from_stdout input = Raise e) /\
  contains line (exn_message IndexError) = false /\
  descriptive IndexError (dataset_id_of m) line = false /\
  (forall ms1 ms2,
     findall true block_pattern input = ms1 ++ m :: ms2 ->
     Forall table_ok ms1 ->
     (forall l, In l (split LF (data_str_of m)) -> is_epoch_line l = true ->
        no_value_error l) ->
     extract_loss_info_from_stdout input = Raise IndexError).
Proof.
  intros Hm Hline Hep Hmiss.
  pose proof (epoch_line_not_in_index_error line Hep) as Htext.
  repeat split.
  - destruct (block_table_malformed _ _ Hline Hep (missing_field_malformed _ Hmiss))
      as [e He].
    apply (for_matches_raises _ _ _ ∅ Hm He).
  - exact Htext.
  - unfold descriptive. rewrite Htext. apply andb_false_r.
  - intros ms1 ms2 Hms Hok Hno. unfold extract_loss_info_from_stdout. rewrite Hms.
    apply for_matches_first_raise; [exact Hok|].
    now apply (block_table_index_error _ line).
Qed.

Lemma missing_field_raises_witness :
  (exists e, extract_loss_info_from_stdout short_log = Raise e) /\
  contains short_line (exn_message IndexError) = false /\
  descriptive IndexError (dataset_id_of [py "D1"; short_line ++ [LF]]) short_line
  = false /\
  (forall ms1 ms2,
     findall true block_pattern short_log
     = ms1 ++ [py "D1"; short_line ++ [LF]] :: ms2 ->
     Forall table_ok ms1 ->
     (forall l, In l (split LF (data_str_of [py "D1"; short_line ++ [LF]])) ->
        is_epoch_line l = true -> no_value_error l) ->
     extract_loss_info_from_stdout short_log = Raise IndexError).
Proof.
  apply (missing_field_raises short_log [py "D1"; short_line ++ [LF]] short_line).
  - vm_compute. auto.
  - vm_compute. auto.
  - reflexivity.
  - right. right. reflexivity.
Defined.



(** C4. In the dictionary the call returns, the key of a block that no
    later block shares is bound to the table of that block's own body:
    of several blocks under one key the last one, in the order of the
    log, decides the entry, and nothing of the earlier tables is left in
    it.  (The dictionary is a finite map: a key has one entry.) *)
Theorem last_block_wins input d ms1 (m : list str) ms2 :
  extract_loss_info_from_stdout input = Ok d ->
  findall true block_pattern input = ms1 ++ m :: ms2 ->
  Forall (fun m' => dataset_id_of m' <> dataset_id_of m) ms2 ->
  exists df,
    block_table (data_str_of m) = Ok df /\ d !! dataset_id_of m = Some df.
Proof.
  intros Hd Hms Hlast.
  unfold extract_loss_info_from_stdout in Hd. cbv zeta in Hd.
  rewrite Hms, for_matches_app in Hd.
  destruct (for_matches ms1 ∅) as [d1|e]; simpl in Hd; [|discriminate].
  unfold loop_body in Hd.
  destruct (block_table (data_str_of m)) as [df|e]; simpl in Hd; [|discriminate].
  exists df. split; [reflexivity|].
  rewrite (for_matches_other_keys _ _ _ _ Hlast Hd). apply lookup_insert_eq.
Qed.

Lemma last_block_wins_witness :
  exists df,
    block_table (data_str_of [py "D1 "; d1_body]) = Ok df /\
    ({[ py "D1" := d1_table ]} : gmap str DataFrame)
      !! dataset_id_of [py "D1 "; d1_body] = Some df.
Proof.
  apply (last_block_wins twice_d1 {[ py "D1" := d1_table ]}
           [[py "D1"; text ["Epoch 7 ... Loss G: 3.0, Loss D: 4.0"; ""]]]
           [py "D1 "; d1_body] []).
  - vm_compute. reflexivity.
  - vm_compute. reflexivity.
  - constructor.
Defined.

(** C5. A log with no start marker that has an end marker behind it
    gives the empty dictionary, and no exception. *)
Theorem no_marker_pair_empty input :
  marker_pair input = false ->
  extract_loss_info_from_stdout input = Ok ∅.
Proof.
  intros H. unfold extract_loss_info_from_stdout.
  rewrite findall_none; [reflexivity|].
  intros x t ->. apply marker_pair_suffix in H.
  destruct (match_here true block_pattern [] t) as [[gs rest]|] eqn:E;
    [|reflexivity].
  apply marker_pair_match in E. congruence.
Qed.

Lemma no_marker_pair_empty_witness :
  extract_loss_info_from_stdout
    (text ["Epoch 0 ... Loss G: 1.5, Loss D: 0.9"; "#END#"; "#START#"; "D1"])
  = Ok ∅.
Proof. apply no_marker_pair_empty. reflexivity. Defined.

(** C6, a defect of the code. The comments of the loop take the first
    line of a block for the key and the rest of the block for the data.
    When the header line is empty, the first group of the pattern, which
    needs a character and passes line breaks, runs on into the next
    line: the key is the first epoch line, the row of that line is not
    in the table, and the dictionary has no key [""]. *)
Lemma empty_header_log_has_no_empty_key :
  extract_loss_info_from_stdout empty_header_log
  = Ok {[ py "Epoch 0 ... Loss G: 1.5, Loss D: 0.9" :=
            {| Epoch := [1%Z]; Loss_G := [FDec false 12 (-1)];
               Loss_D := [FDec false 8 (-1)] |} ]} /\
  ({[ py "Epoch 0 ... Loss G: 1.5, Loss D: 0.9" :=
        {| Epoch := [1%Z]; Loss_G := [FDec false 12 (-1)];
           Loss_D := [FDec false 8 (-1)] |} ]} : gmap str DataFrame) !! [] = None.
Proof. split; vm_compute; reflexivity. Qed.

(** X20. A block whose header line is not empty and holds only white
    space (and no line break) has the key [""]: its table is in the
    dictionary under that key, and no exception is raised for the
    header. *)
Theorem blank_header_key sep hdr body post df :
  quiet sep = true -> header_ok hdr = true -> forallb isspace hdr = true ->
  body_ok body = true -> contains START post = false ->
  block_table body = Ok df ->
  extract_loss_info_from_stdout (sep ++ block hdr body ++ post) = Ok {[ [] := df ]}.
Proof.
  intros Hs Hh Hsp Hb Hp Hdf. rewrite <- (strip_spaces hdr Hsp).
  now apply extract_single_block.
Qed.

Lemma blank_header_key_witness :
  extract_loss_info_from_stdout
    ([] ++ block (py "  ") d1_body ++ [LF]) = Ok {[ [] := d1_table ]}.
Proof.
  apply (blank_header_key [] (py "  ") d1_body [LF] d1_table);
    vm_compute; reflexivity.
Defined.

(** C7. A line of a body that does not start with [Epoch] is ignored:
    with the line or without it, the table of the body (or the exception
    raised for it) is the same, rows, row count and values. *)
Theorem noise_line_ignored before noise after :
  Forall (fun l => contains [LF] l = false) (before ++ noise :: after) ->
  is_epoch_line noise = false ->
  block_table (join LF (before ++ noise :: after))
  = block_table (join LF (before ++ after)).
Proof.
  intros Hlines Hnoise. apply block_table_epoch_lines.
  assert (Hrest : Forall (fun l => contains [LF] l = false) (before ++ after)).
  { apply Forall_app in Hlines as [Hb Ha]. apply Forall_app. split; [exact Hb|].
    now inversion Ha. }
  rewrite !epoch_lines_join by assumption.
  rewrite !List.filter_app. simpl. now rewrite Hnoise.
Qed.

Lemma noise_line_ignored_witness :
  block_table
    (join LF ([py "Epoch 0 ... Loss G: 1.5, Loss D: 0.9"]
              ++ py "Step info: foo"
              :: [py "Epoch 1 ... Loss G: 1.2, Loss D: 0.8"; []]))
  = block_table
      (join LF ([py "Epoch 0 ... Loss G: 1.5, Loss D: 0.9"]
                ++ [py "Epoch 1 ... Loss G: 1.2, Loss D: 0.8"; []])).
Proof.
  apply (noise_line_ignored [py "Epoch 0 ... Loss G: 1.5, Loss D: 0.9"]
           (py "Step info: foo")
           [py "Epoch 1 ... Loss G: 1.2, Loss D: 0.8"; []]).
  - repeat constructor.
  - reflexivity.
Defined.

(** C9, a defect of the code. The pattern is meant to match each block
    between its start and its end marker.  For a block [D1] without a
    body, followed by a block [D2], the second group, which needs a
    character, runs past the end marker of [D1] to the end marker of
    [D2]: the dictionary has the key ["D1"] with the row of [D2], and no
    key ["D2"]. *)
Lemma empty_body_takes_next_block :
  extract_loss_info_from_stdout empty_then_d2
  = Ok {[ py "D1" :=
            {| Epoch := [0%Z]; Loss_G := [FDec false 15 (-1)];
               Loss_D := [FDec false 9 (-1)] |} ]} /\
  ({[ py "D1" :=
        {| Epoch := [0%Z]; Loss_G := [FDec false 15 (-1)];
           Loss_D := [FDec false 9 (-1)] |} ]} : gmap str DataFrame) !! py "D2"
  = None.
Proof. split; vm_compute; reflexivity. Qed.

(** X21. A log that has, behind text without [#], one block without a
    body, and in which no end marker begins behind the first character
    of the end marker of that block, gives the empty dictionary and no
    exception. *)
Theorem empty_body_left_out sep hdr post :
  quiet sep = true -> contains [LF] hdr = false ->
  contains END (py "END#" ++ post) = false ->
  extract_loss_info_from_stdout (sep ++ block hdr [] ++ post) = Ok ∅.
Proof.
  intros Hs Hh Hp. unfold extract_loss_info_from_stdout.
  rewrite findall_quiet by exact Hs.
  unfold block. rewrite <- !app_assoc. cbn [app].
  now rewrite findall_empty_body.
Qed.

Lemma empty_body_left_out_witness :
  extract_loss_info_from_stdout
    (text ["training"; ""] ++ block (py "D1") [] ++ text [""; "done"])
  = Ok ∅.
Proof.
  apply (empty_body_left_out (text ["training"; ""]) (py "D1") (text [""; "done"]));
    reflexivity.
Defined.

(** C10. A malformed epoch line in a block makes the call raise: no
    dictionary is returned.  When the blocks before that block all have
    their tables, the loop had put them into the dictionary, and the
    call raises the exception of that block all the same: the tables of
    the earlier blocks do not reach the caller. *)
Theorem failure_discards_earlier_tables input ms1 (m : list str) ms2 line :
  findall true block_pattern input = ms1 ++ m :: ms2 ->
  In line (split LF (data_str_of m)) ->
  is_epoch_line line = true ->
  malformed line ->
  (exists e, extract_loss_info_from_stdout input = Raise e) /\
  (Forall table_ok ms1 ->
   exists d1 e,
     for_matches ms1 ∅ = Ok d1 /\
     Forall (fun m' => is_Some (d1 !! dataset_id_of m')) ms1 /\
     block_table (data_str_of m) = Raise e /\
     extract_loss_info_from_stdout input = Raise e).
Proof.
  intros Hms Hline Hep Hbad.
  destruct (block_table_malformed _ _ Hline Hep Hbad) as [e He].
  split.
  - unfold extract_loss_info_from_stdout. rewrite Hms.
    apply (for_matches_raises _ m e); [|exact He].
    apply in_or_app. right. now left.
  - intros Hok. destruct (for_matches_ok ms1 ∅ Hok) as [d1 Hd1].
    exists d1, e. repeat split; try assumption.
    + now apply for_matches_keys in Hd1.
    + unfold extract_loss_info_from_stdout. rewrite Hms.
      now apply for_matches_first_raise.
Qed.

Lemma failure_discards_earlier_tables_witness :
  (exists e, extract_loss_info_from_stdout good_then_bad = Raise e) /\
  (Forall table_ok [[py "A"; text ["Epoch 0 ... Loss G: 1.5, Loss D: 0.9"; ""]]] ->
   exists d1 e,
     for_matches [[py "A"; text ["Epoch 0 ... Loss G: 1.5, Loss D: 0.9"; ""]]] ∅
     = Ok d1 /\
     Forall (fun m' => is_Some (d1 !! dataset_id_of m'))
       [[py "A"; text ["Epoch 0 ... Loss G: 1.5, Loss D: 0.9"; ""]]] /\
     block_table
       (data_str_of [py "B"; text ["Epoch 0 ... Loss G: n/a, Loss D: 0.9"; ""]])
     = Raise e /\
     extract_loss_info_from_stdout good_then_bad = Raise e).
Proof.
  apply (failure_discards_earlier_tables good_then_bad
           [[py "A"; text ["Epoch 0 ... Loss G: 1.5, Loss D: 0.9"; ""]]]
           [py "B"; text ["Epoch 0 ... Loss G: n/a, Loss D: 0.9"; ""]] []
           (py "Epoch 0 ... Loss G: n/a, Loss D: 0.9")).
  - vm_compute. reflexivity.
  - vm_compute. auto.
  - reflexivity.
  - right. left. eexists. vm_compute. reflexivity.
Defined.

(** * Further properties *)

(** X1. The three columns of a body always have the same length: each
    comprehension that does not raise has one element per epoch line, so
    [pd.DataFrame] never refuses the columns of [block_table]. *)
Theorem columns_have_equal_length data_str es gs ds :
  comprehension epoch_of (split LF data_str) = Ok es ->
  comprehension loss_g_of (split LF data_str) = Ok gs ->
  comprehension loss_d_of (split LF data_str) = Ok ds ->
  length es = length gs /\ length gs = length ds /\
  pd_DataFrame es gs ds = Ok {| Epoch := es; Loss_G := gs; Loss_D := ds |}.
Proof.
  intros He Hg Hd.
  apply comprehension_length in He, Hg, Hd.
  assert (H1 : length es = length gs) by congruence.
  assert (H2 : length gs = length ds) by congruence.
  repeat split; try assumption.
  unfold pd_DataFrame. now rewrite H1, H2, !Nat.eqb_refl.
Qed.

Lemma columns_have_equal_length_witness :
  length [0; 1]%Z = length [FDec false 15 (-1); FDec false 12 (-1)] /\
  length [FDec false 15 (-1); FDec false 12 (-1)]
  = length [FDec false 9 (-1); FDec false 8 (-1)] /\
  pd_DataFrame [0; 1]%Z [FDec false 15 (-1); FDec false 12 (-1)]
    [FDec false 9 (-1); FDec false 8 (-1)]
  = Ok d1_table.
Proof.
  apply (columns_have_equal_length d1_body); vm_compute; reflexivity.
Defined.

(** X2. Two well-formed blocks with different keys, one behind the
    other: the dictionary has exactly the two keys, each bound to the
    table of its own block. *)
Theorem two_blocks_two_keys sep1 hdr1 body1 sep2 hdr2 body2 post df1 df2 :
  quiet sep1 = true -> header_ok hdr1 = true -> body_ok body1 = true ->
  quiet sep2 = true -> header_ok hdr2 = true -> body_ok body2 = true ->
  contains START post = false ->
  block_table body1 = Ok df1 -> block_table body2 = Ok df2 ->
  strip hdr1 <> strip hdr2 ->
  exists d,
    extract_loss_info_from_stdout
      (sep1 ++ block hdr1 body1 ++ sep2 ++ block hdr2 body2 ++ post) = Ok d /\
    d !! strip hdr1 = Some df1 /\ d !! strip hdr2 = Some df2 /\ size d = 2.
Proof.
  intros Hs1 Hh1 Hb1 Hs2 Hh2 Hb2 Hp Hd1 Hd2 Hne.
  unfold extract_loss_info_from_stdout.
  rewrite findall_block by assumption. rewrite findall_block by assumption.
  rewrite findall_no_start by exact Hp.
  simpl. unfold loop_body, data_str_of, dataset_id_of. simpl.
  rewrite Hd1. simpl. rewrite Hd2. simpl.
  eexists. split; [reflexivity|]. repeat split.
  - rewrite lookup_insert_ne by congruence. apply lookup_insert_eq.
  - apply lookup_insert_eq.
  - rewrite map_size_insert_None.
    + now rewrite insert_empty, map_size_singleton.
    + rewrite lookup_insert_ne by congruence. apply lookup_empty.
Qed.

Lemma two_blocks_two_keys_witness :
  exists d,
    extract_loss_info_from_stdout
      ([] ++ block (py "A") d1_body ++ [LF] ++ block (py "B") shuffled_body ++ [LF])
    = Ok d /\
    d !! strip (py "A") = Some d1_table /\
    d !! strip (py "B")
    = Some {| Epoch := [3; 1; 3]%Z;
              Loss_G := [FDec false 5 (-1); FDec true 125 (-2); FDec false 2 0];
              Loss_D := [FDec true 25 (-2); FDec false 75 (-2); FDec false 125 (-3)] |} /\
    size d = 2.
Proof.
  apply (two_blocks_two_keys [] (py "A") d1_body [LF] (py "B") shuffled_body [LF]);
    try (vm_compute; reflexivity).
  vm_compute. discriminate.
Defined.

(** ** Greedy runs *)

Lemma plus_greedy_inv_ok {R} (ok : ascii -> bool) (k : str -> str -> option R) s :
  forall acc r,
  plus_greedy ok k acc s = Some r ->
  exists g rest, g <> [] /\ forallb ok g = true /\ s = g ++ rest /\
    k (acc ++ g) rest = Some r.
Proof.
  induction s as [|a s IH]; intros acc r H; simpl in H; [discriminate|].
  destruct (ok a) eqn:Ha; [|discriminate].
  destruct (plus_greedy ok k (acc ++ [a]) s) eqn:Hrec.
  - injection H as ->. apply IH in Hrec as (g & rest & Hne & Hok & -> & Hg).
    exists (a :: g), rest. rewrite <- app_assoc in Hg. simpl. rewrite Ha, Hok.
    repeat split; [discriminate | exact Hg].
  - exists [a], s. simpl. rewrite Ha. repeat split; [discriminate | exact H].
Qed.

Lemma plus_greedy_stops {R} (ok : ascii -> bool) (k : str -> str -> option R) acc rest :
  run_ends ok rest = true -> plus_greedy ok k acc rest = None.
Proof.
  destruct rest as [|c rest]; [reflexivity|]. simpl. intros H.
  apply negb_true_iff in H. now rewrite H.
Qed.

(** A greedy run takes the whole run when the continuation accepts it. *)
Lemma plus_greedy_exact {R} (ok : ascii -> bool) (k : str -> str -> option R) g :
  forall acc rest r,
  g <> [] -> forallb ok g = true -> run_ends ok rest = true ->
  k (acc ++ g) rest = Some r ->
  plus_greedy ok k acc (g ++ rest) = Some r.
Proof.
  induction g as [|a g IH]; intros acc rest r Hne Hok Hend Hk; [congruence|].
  simpl in Hok. apply andb_true_iff in Hok as [Ha Hok].
  simpl. rewrite Ha. destruct g as [|b g].
  - simpl. rewrite plus_greedy_stops by exact Hend. exact Hk.
  - rewrite (IH (acc ++ [a]) rest r); [reflexivity | discriminate | exact Hok
      | exact Hend | now rewrite <- app_assoc].
Qed.

(** ** Digits *)

Lemma isdigit_plain a :
  isdigit a = true ->
  isspace_number a = false /\ Ascii.eqb a underscore = false /\
  Ascii.eqb a (ascii_of_nat 45) = false /\ Ascii.eqb a (ascii_of_nat 43) = false.
Proof.
  destruct a as [[] [] [] [] [] [] [] []]; vm_compute; intros H;
    try discriminate; auto.
Qed.

Lemma digitpart_digits ds :
  ds <> [] -> forallb isdigit ds = true -> digitpart ds = Some ds.
Proof.
  induction ds as [|a ds IH]; intros Hne H; [congruence|].
  simpl in H. apply andb_true_iff in H as [Ha Hds].
  cbn [digitpart]. rewrite Ha. destruct ds as [|b ds]; [reflexivity|].
  assert (Hb : isdigit b = true) by (simpl in Hds; now apply andb_true_iff in Hds).
  destruct (isdigit_plain b Hb) as (_ & -> & _).
  rewrite IH by (discriminate || assumption). reflexivity.
Qed.

Lemma lstrip_number_plain a s :
  isspace_number a = false -> lstrip_number (a :: s) = a :: s.
Proof. intros H. simpl. now rewrite H. Qed.

(** Text that neither begins nor ends with white space is not stripped. *)
Lemma strip_number_plain a s b :
  isspace_number a = false -> isspace_number b = false ->
  strip_number (a :: s ++ [b]) = a :: s ++ [b].
Proof.
  intros Ha Hb. unfold strip_number.
  rewrite lstrip_number_plain by exact Ha.
  pose proof (rev_unit (a :: s) b) as E. cbn [app] in E.
  rewrite E, lstrip_number_plain by exact Hb.
  rewrite <- E. apply rev_involutive.
Qed.

Lemma strip_number_one a : isspace_number a = false -> strip_number [a] = [a].
Proof. intros H. unfold strip_number. simpl. rewrite H. simpl. now rewrite H. Qed.

Lemma forallb_last {A} (f : A -> bool) l x :
  forallb f (l ++ [x]) = true -> f x = true.
Proof.
  rewrite forallb_app. simpl. intros H. apply andb_true_iff in H as [_ H].
  now rewrite andb_true_r in H.
Qed.

Lemma strip_number_ends P s :
  s <> [] -> forallb P s = true ->
  (forall a, P a = true -> isspace_number a = false) ->
  strip_number s = s.
Proof.
  intros Hne H HP. destruct s as [|a s]; [congruence|].
  destruct (exists_last (l := a :: s)) as (l & b & E); [discriminate|].
  destruct l as [|a' l].
  - simpl in E. injection E as -> ->. apply strip_number_one, HP.
    simpl in H. now apply andb_true_iff in H.
  - simpl in E. injection E as <- E. rewrite E.
    apply strip_number_plain; apply HP.
    + simpl in H. now apply andb_true_iff in H.
    + rewrite E in H. simpl in H. apply andb_true_iff in H as [_ H].
      now apply forallb_last in H.
Qed.

Lemma sign_digit a s : isdigit a = true -> sign (a :: s) = (false, a :: s).
Proof.
  intros H. destruct (isdigit_plain a H) as (_ & _ & H1 & H2).
  unfold sign. now rewrite H1, H2.
Qed.

(** [int] of a text of digits 0 to 9: the number, or the refusal of a
    text that is too long. *)
Lemma py_int_digits ds :
  ds <> [] -> forallb isdigit ds = true ->
  py_int ds = Ok (Z.of_N (digits_value ds)) \/ exists msg, py_int ds = Raise (ValueError msg).
Proof.
  intros Hne H. unfold py_int.
  rewrite (strip_number_ends isdigit) by (auto; intros a Ha; apply isdigit_plain, Ha).
  destruct ds as [|a ds]; [congruence|].
  rewrite sign_digit by (simpl in H; now apply andb_true_iff in H).
  rewrite digitpart_digits by assumption.
  destruct ((0 <? int_max_str_digits) && (int_max_str_digits <? length (a :: ds)));
    [right; eauto | left; reflexivity].
Qed.

Lemma py_int_short_digits ds :
  ds <> [] -> forallb isdigit ds = true -> length ds <= int_max_str_digits ->
  py_int ds = Ok (Z.of_N (digits_value ds)).
Proof.
  intros Hne H Hlen. unfold py_int.
  rewrite (strip_number_ends isdigit) by (auto; intros a Ha; apply isdigit_plain, Ha).
  destruct ds as [|a ds]; [congruence|].
  rewrite sign_digit by (simpl in H; now apply andb_true_iff in H).
  rewrite digitpart_digits by assumption.
  apply Nat.ltb_ge in Hlen. now rewrite Hlen, andb_false_r.
Qed.

(** ** The three fields of an epoch line *)

Lemma match_epoch ds rest :
  ds <> [] -> forallb isdigit ds = true -> run_ends isdigit rest = true ->
  match_here false epoch_pattern [] (py "Epoch " ++ ds ++ rest) = Some ([ds], rest).
Proof.
  intros Hne Hds Hend. unfold epoch_pattern. cbn [match_here].
  rewrite after_literal_app.
  apply plus_greedy_exact; [exact Hne | exact Hds | exact Hend | reflexivity].
Qed.

(** Every text the epoch pattern captures is a text of digits 0 to 9. *)
Lemma findall1_epoch_digits line g :
  In g (findall1 epoch_pattern line) -> g <> [] /\ forallb isdigit g = true.
Proof.
  unfold findall1, findall. intros H. apply in_map_iff in H as (gs & <- & H).
  apply scan_in in H as (x & t & rest & _ & H).
  unfold epoch_pattern in H. cbn [match_here] in H.
  destruct (after_literal (py "Epoch ") t) as [u|]; [|discriminate].
  apply plus_greedy_inv_ok in H as (g & rest' & Hne & Hok & _ & H).
  cbn [match_here app] in H. injection H as <- _. simpl. now split.
Qed.

Lemma index0_In {A} (l : list A) x : index0 l = Ok x -> In x l.
Proof. destruct l; simpl; intros H; [discriminate|]. injection H as ->. now left. Qed.

Lemma epoch_of_nonneg line z : epoch_of line = Ok z -> (0 <= z)%Z.
Proof.
  unfold epoch_of. destruct (index0 (findall1 epoch_pattern line)) as [g|e] eqn:E;
    simpl; [|discriminate].
  apply index0_In, findall1_epoch_digits in E as [Hne Hds].
  destruct (py_int_digits g Hne Hds) as [->|[msg ->]]; [|discriminate].
  intros H. injection H as <-. apply N2Z.is_nonneg.
Qed.

Lemma comprehension_Forall {A} (f : str -> result A) (P : A -> Prop) lines :
  (forall line x, f line = Ok x -> P x) ->
  forall xs, comprehension f lines = Ok xs -> Forall P xs.
Proof.
  intros HP. induction lines as [|line lines IH]; intros xs H; simpl in H.
  - injection H as <-. constructor.
  - destruct (is_epoch_line line); [|now apply IH].
    destruct (f line) as [x|e] eqn:Ex; simpl in H; [|discriminate].
    destruct (comprehension f lines) as [xs'|e]; simpl in H; [|discriminate].
    injection H as <-. constructor; [now apply (HP line) | now apply IH].
Qed.

Lemma block_table_columns data_str df :
  block_table data_str = Ok df ->
  comprehension epoch_of (split LF data_str) = Ok (Epoch df) /\
  comprehension loss_g_of (split LF data_str) = Ok (Loss_G df) /\
  comprehension loss_d_of (split LF data_str) = Ok (Loss_D df).
Proof.
  unfold block_table, pd_DataFrame. intros H.
  destruct (comprehension epoch_of _) as [es|e]; simpl in H; [|discriminate].
  destruct (comprehension loss_g_of _) as [gs|e]; simpl in H; [|discriminate].
  destruct (comprehension loss_d_of _) as [ds|e]; simpl in H; [|discriminate].
  destruct ((length es =? length gs) && (length gs =? length ds)); [|discriminate].
  injection H as <-. auto.
Qed.

(** What holds of every table of a block holds of every table of the
    dictionary. *)
Lemma for_matches_tables (P : DataFrame -> Prop) ms :
  (forall s df, block_table s = Ok df -> P df) ->
  forall d d', (forall k df, d !! k = Some df -> P df) ->
  for_matches ms d = Ok d' -> forall k df, d' !! k = Some df -> P df.
Proof.
  intros HP. induction ms as [|m ms IH]; intros d d' Hd H; simpl in H.
  - now injection H as <-.
  - unfold loop_body in H.
    destruct (block_table (data_str_of m)) as [df0|e] eqn:E; simpl in H;
      [|discriminate].
    apply (IH (<[dataset_id_of m := df0]> d) d'); [|exact H].
    intros k df Hk. destruct (decide (dataset_id_of m = k)) as [Heq|Hne].
    + rewrite Heq, lookup_insert_eq in Hk. injection Hk as <-. now apply (HP _ _ E).
    + rewrite lookup_insert_ne in Hk by exact Hne. now apply (Hd k).
Qed.

(** X3. No table that the call returns has a negative epoch number: the
    pattern captures digits only. *)
Theorem epochs_are_not_negative input d k df :
  extract_loss_info_from_stdout input = Ok d ->
  d !! k = Some df ->
  Forall (fun z => (0 <= z)%Z) (Epoch df).
Proof.
  unfold extract_loss_info_from_stdout. intros Hd Hk.
  refine (for_matches_tables (fun df => Forall (fun z => (0 <= z)%Z) (Epoch df))
            _ _ ∅ d _ Hd k df Hk).
  - intros s df0 H. apply block_table_columns in H as (H & _).
    apply (comprehension_Forall epoch_of _ _ epoch_of_nonneg _ H).
  - intros k0 df0 H. now rewrite lookup_empty in H.
Qed.

Lemma epochs_are_not_negative_witness :
  Forall (fun z => (0 <= z)%Z) (Epoch d1_table).
Proof.
  apply (epochs_are_not_negative
           (text ["#START#"; "D1";
                  "Epoch 0 ... Loss G: 1.5, Loss D: 0.9";
                  "Epoch 1 ... Loss G: 1.2, Loss D: 0.8";
                  "#END#"])
           {[ py "D1" := d1_table ]} (py "D1") d1_table);
    vm_compute; reflexivity.
Defined.

(** X4. An epoch line that begins with [Epoch], a blank and a run of at
    most 4300 digits has the number those digits write in base ten as
    its epoch, whatever follows the run. *)
Theorem epoch_number_of_line ds rest :
  ds <> [] -> forallb isdigit ds = true -> run_ends isdigit rest = true ->
  length ds <= int_max_str_digits ->
  epoch_of (py "Epoch " ++ ds ++ rest) = Ok (Z.of_N (digits_value ds)).
Proof.
  intros Hne Hds Hend Hlen. unfold epoch_of, findall1.
  rewrite app_assoc, (findall_match false epoch_pattern (py "Epoch " ++ ds) [ds] rest).
  - simpl. now apply py_int_short_digits.
  - unfold py. discriminate.
  - rewrite <- app_assoc. now apply match_epoch.
Qed.

Lemma epoch_number_of_line_witness :
  epoch_of (py "Epoch " ++ py "120" ++ py ", Loss G:  0.5000,Loss D: -0.2500")
  = Ok (Z.of_N (digits_value (py "120"))) /\
  Z.of_N (digits_value (py "120")) = 120%Z.
Proof.
  split; [|reflexivity].
  apply (epoch_number_of_line (py "120") (py ", Loss G:  0.5000,Loss D: -0.2500"));
    try reflexivity; [discriminate|].
  unfold int_max_str_digits. apply Nat.leb_le. vm_compute. reflexivity.
Defined.

(** In front of the first place where the literal [p] stands, a pattern
    that begins with [p] matches nowhere. *)
Lemma findall_first_literal dotall p r pre s :
  p <> [] ->
  contains p (pre ++ removelast p) = false ->
  findall dotall (Lit p :: r) (pre ++ p ++ s) = findall dotall (Lit p :: r) (p ++ s).
Proof.
  intros Hp. induction pre as [|a pre IH]; intros H; [reflexivity|].
  cbn [app] in *. apply contains_cons in H as [Hhere Hrest].
  rewrite findall_no_match; [now apply IH|].
  cbn [match_here]. rewrite after_literal_startswith; [reflexivity|].
  rewrite (app_removelast_last (ascii_of_nat 0) Hp), <- app_assoc.
  change (a :: pre ++ removelast p ++ [List.last p (ascii_of_nat 0)] ++ s)
    with ((a :: pre) ++ removelast p ++ [List.last p (ascii_of_nat 0)] ++ s).
  rewrite app_assoc, startswith_long.
  - rewrite <- (app_removelast_last (ascii_of_nat 0) Hp). exact Hhere.
  - rewrite !length_app. simpl. lia.
Qed.

Lemma no_lf_class x : contains [LF] x = false -> forallb (class_ok false Dot) x = true.
Proof.
  induction x as [|a x IH]; intros H; [reflexivity|].
  apply contains_cons in H as [Ha Hx]. cbn [startswith] in Ha.
  rewrite andb_true_r, Ascii.eqb_sym in Ha.
  simpl. now rewrite Ha, (IH Hx).
Qed.

(** X5. The discriminator loss of a line is [float] of everything behind
    the first [Loss D: ], up to the end of the line: text behind the
    number is part of what [float] is given. *)
Theorem loss_d_is_rest_of_line pre x :
  contains (py "Loss D: ") (pre ++ py "Loss D:") = false ->
  x <> [] -> contains [LF] x = false ->
  loss_d_of (pre ++ py "Loss D: " ++ x) = py_float x.
Proof.
  intros Hpre Hne Hlf. unfold loss_d_of, findall1, loss_d_pattern.
  rewrite findall_first_literal by (exact Hpre || (unfold py; discriminate)).
  rewrite <- (app_nil_r x) at 1. rewrite app_assoc.
  rewrite (findall_match false _ (py "Loss D: " ++ x) [x] []).
  - reflexivity.
  - unfold py. discriminate.
  - cbn [match_here]. rewrite <- app_assoc, after_literal_app.
    apply plus_greedy_exact; [exact Hne | now apply no_lf_class | reflexivity
      | reflexivity].
Qed.

Lemma loss_d_is_rest_of_line_witness :
  loss_d_of (py "Epoch 3, Loss G:  0.5000," ++ py "Loss D: " ++ py "-0.2500 (best)")
  = py_float (py "-0.2500 (best)") /\
  py_float (py "-0.2500 (best)")
  = Raise (ValueError (py "could not convert string to float: '-0.2500 (best)'")).
Proof.
  split; [|reflexivity].
  apply (loss_d_is_rest_of_line (py "Epoch 3, Loss G:  0.5000,") (py "-0.2500 (best)"));
    try reflexivity. discriminate.
Defined.

(** X6. The generator loss of a line is [float] of the text between the
    first [Loss G: ] and the next comma. *)
Theorem loss_g_is_up_to_comma pre g rest :
  contains (py "Loss G: ") (pre ++ py "Loss G:") = false ->
  g <> [] -> contains [LF] g = false -> contains (py ",") g = false ->
  loss_g_of (pre ++ py "Loss G: " ++ g ++ py "," ++ rest) = py_float g.
Proof.
  intros Hpre Hne Hlf Hcomma. unfold loss_g_of, findall1, loss_g_pattern.
  rewrite findall_first_literal by (exact Hpre || (unfold py; discriminate)).
  replace (py "Loss G: " ++ g ++ py "," ++ rest)
    with ((py "Loss G: " ++ g ++ py ",") ++ rest) by now rewrite <- !app_assoc.
  rewrite (findall_match false _ (py "Loss G: " ++ g ++ py ",") [g] rest).
  - reflexivity.
  - unfold py. discriminate.
  - cbn [match_here]. rewrite <- !app_assoc, after_literal_app.
    apply plus_lazy_exact; [exact Hne | now apply no_lf_class | |].
    + intros g1 g2 -> _ Hg2. cbn [match_here]. destruct g2 as [|c g2]; [congruence|].
      apply contains_app_r, contains_startswith in Hcomma.
      rewrite after_literal_startswith; [reflexivity|].
      unfold py in *. cbn [list_ascii_of_string startswith app] in *. exact Hcomma.
    + cbn [match_here app]. now rewrite after_literal_app.
Qed.

Lemma loss_g_is_up_to_comma_witness :
  loss_g_of (py "Epoch 3, " ++ py "Loss G: " ++ py " 0.5000" ++ py "," ++ py "Loss D: -0.2500")
  = py_float (py " 0.5000") /\
  py_float (py " 0.5000") = Ok (FDec false 5 (-1)).
Proof.
  split; [|reflexivity].
  apply (loss_g_is_up_to_comma (py "Epoch 3, ") (py " 0.5000") (py "Loss D: -0.2500"));
    try reflexivity. discriminate.
Defined.

(** ** A log of several blocks *)

Lemma findall_blocks blocks post :
  forallb log_block_ok blocks = true -> contains START post = false ->
  findall true block_pattern (concat (map log_block blocks) ++ post)
  = map match_of blocks.
Proof.
  intros Hok Hpost. induction blocks as [|[[sep hdr] body] blocks IH].
  - now apply findall_no_start.
  - simpl in Hok. apply andb_true_iff in Hok as [Hb Hok].
    apply andb_true_iff in Hb as [Hb Hbody]. apply andb_true_iff in Hb as [Hsep Hhdr].
    cbn [map concat log_block match_of]. rewrite <- !app_assoc.
    rewrite findall_block by assumption. now rewrite IH.
Qed.

Lemma for_matches_dom ms k : forall d d',
  for_matches ms d = Ok d' ->
  (is_Some (d' !! k) <-> is_Some (d !! k) \/ exists m, In m ms /\ dataset_id_of m = k).
Proof.
  induction ms as [|m ms IH]; intros d d' H; simpl in H.
  - injection H as <-. split; [auto|]. intros [H|(m & [] & _)]. exact H.
  - unfold loop_body in H.
    destruct (block_table (data_str_of m)) as [df|e]; simpl in H; [|discriminate].
    rewrite (IH _ _ H), lookup_insert_is_Some. split.
    + intros [[Hk|[_ Hk]]|(m' & Hin & Hk)]; eauto.
      * right. exists m. split; [now left | exact Hk].
      * right. exists m'. split; [now right | exact Hk].
    + intros [Hk|(m' & [<-|Hin] & Hk)]; eauto.
      destruct (decide (dataset_id_of m = k)); auto.
Qed.

(** X7. In a log made of well-formed blocks, each behind text without
    [#], the call visits exactly these blocks, in their order, and the
    keys of the dictionary it returns are exactly the stripped header
    lines of the blocks. *)
Theorem keys_are_the_headers blocks post :
  forallb log_block_ok blocks = true -> contains START post = false ->
  extract_loss_info_from_stdout (concat (map log_block blocks) ++ post)
  = for_matches (map match_of blocks) ∅ /\
  forall d k,
    extract_loss_info_from_stdout (concat (map log_block blocks) ++ post) = Ok d ->
    (is_Some (d !! k) <->
     exists sep hdr body, In (sep, hdr, body) blocks /\ k = strip hdr).
Proof.
  intros Hok Hpost. unfold extract_loss_info_from_stdout.
  rewrite findall_blocks by assumption. split; [reflexivity|].
  intros d k Hd. rewrite (for_matches_dom _ k _ _ Hd). split.
  - intros [H|(m & Hin & Hk)].
    + rewrite lookup_empty in H. now destruct H.
    + apply in_map_iff in Hin as ([[sep hdr] body] & <- & Hin).
      exists sep, hdr, body. split; [exact Hin | now rewrite <- Hk].
  - intros (sep & hdr & body & Hin & ->). right.
    exists (match_of (sep, hdr, body)). split; [|reflexivity].
    now apply in_map.
Qed.

Lemma keys_are_the_headers_witness :
  extract_loss_info_from_stdout
    (concat (map log_block [([], py "A", d1_body); ([LF], py " B ", shuffled_body)])
     ++ [LF])
  = for_matches (map match_of [([], py "A", d1_body); ([LF], py " B ", shuffled_body)]) ∅ /\
  forall d k,
    extract_loss_info_from_stdout
      (concat (map log_block [([], py "A", d1_body); ([LF], py " B ", shuffled_body)])
       ++ [LF]) = Ok d ->
    (is_Some (d !! k) <->
     exists sep hdr body,
       In (sep, hdr, body) [([], py "A", d1_body); ([LF], py " B ", shuffled_body)] /\
       k = strip hdr).
Proof.
  apply (keys_are_the_headers
           [([], py "A", d1_body); ([LF], py " B ", shuffled_body)] [LF]);
    reflexivity.
Defined.

(** ** [translate_model_name] *)

Lemma eq_str_eq a : forall b, eq_str a b = true <-> a = b.
Proof.
  unfold eq_str. induction a as [|x a IH]; intros [|y b]; simpl; split;
    try discriminate; try reflexivity.
  - intros H. apply andb_true_iff in H as [Hlen H].
    apply andb_true_iff in H as [Hxy H]. apply Ascii.eqb_eq in Hxy. subst y.
    f_equal. apply IH. now rewrite Hlen, H.
  - intros H. injection H as <- <-. rewrite Ascii.eqb_refl. simpl.
    now apply (IH a).
Qed.

Lemma dict_get_In {V} k (items : list (str * V)) v :
  dict_get k items = Some v -> In (k, v) items.
Proof.
  induction items as [|[k' v'] items IH]; simpl; [discriminate|].
  destruct (eq_str k' k) eqn:E.
  - intros H. injection H as ->. apply eq_str_eq in E. subst. now left.
  - intros H. right. now apply IH.
Qed.

(** X8. No two abbreviations have the same full name: from the name
    [translate_model_name] returns, the abbreviation can be told. *)
Theorem translate_model_name_injective m1 m2 name :
  translate_model_name m1 = Some name ->
  translate_model_name m2 = Some name ->
  m1 = m2.
Proof.
  unfold translate_model_name. intros H1 H2.
  apply dict_get_In in H1, H2.
  assert (Hall : forallb (fun p => forallb (fun q =>
            implb (eq_str (snd p) (snd q)) (eq_str (fst p) (fst q)))
            model_names) model_names = true) by (vm_compute; reflexivity).
  rewrite forallb_forall in Hall. specialize (Hall _ H1).
  rewrite forallb_forall in Hall. specialize (Hall _ H2). simpl in Hall.
  assert (E : eq_str name name = true) by now apply eq_str_eq.
  rewrite E in Hall. simpl in Hall. now apply eq_str_eq.
Qed.

Lemma translate_model_name_injective_witness : py "rf" = py "rf".
Proof.
  apply (translate_model_name_injective (py "rf") (py "rf") (py "Random Forest"));
    reflexivity.
Defined.

(** ** [unravel_metric_report] *)

Lemma unravel_entry_writes {V} (fd : gmap str V) entry :
  unravel_entry fd entry = assign_all (entry_writes entry) fd.
Proof.
  destruct entry as [key [v|items]]; [reflexivity|]. unfold assign_all. simpl.
  revert fd. induction items as [|[ik iv] items IH]; intros fd; [reflexivity|].
  simpl. apply IH.
Qed.

Lemma assign_all_app {V} (w1 w2 : list (str * V)) (fd : gmap str V) :
  assign_all (w1 ++ w2) fd = assign_all w2 (assign_all w1 fd).
Proof. unfold assign_all. apply fold_left_app. Qed.

Lemma assign_all_cons {V} (k : str) (v : V) (ws : list (str * V))
    (fd : gmap str V) :
  assign_all ((k, v) :: ws) fd = assign_all ws (<[k := v]> fd).
Proof. reflexivity. Qed.

Lemma unravel_from_writes {V} (report : list (str * report_value V)) :
  forall fd : gmap str V,
  fold_left unravel_entry report fd = assign_all (report_writes report) fd.
Proof.
  unfold report_writes.
  induction report as [|entry report IH]; intros fd; [reflexivity|].
  simpl. rewrite assign_all_app, <- unravel_entry_writes. apply IH.
Qed.

Lemma writes_lookup_other {V} (ws : list (str * V)) (k : str) :
  forall fd : gmap str V,
  ~ In k (map fst ws) -> assign_all ws fd !! k = fd !! k.
Proof.
  induction ws as [|[k' v'] ws IH]; intros fd H; [reflexivity|].
  rewrite assign_all_cons. simpl in H. rewrite IH by tauto.
  apply lookup_insert_ne. tauto.
Qed.

Lemma writes_lookup_last {V} (w1 w2 : list (str * V)) (k : str) (v : V)
    (fd : gmap str V) :
  ~ In k (map fst w2) ->
  assign_all (w1 ++ (k, v) :: w2) fd !! k = Some v.
Proof.
  intros H. rewrite assign_all_app, assign_all_cons.
  rewrite writes_lookup_other by exact H. apply lookup_insert_eq.
Qed.

Lemma writes_is_Some {V} (ws : list (str * V)) (k : str) :
  forall fd : gmap str V,
  is_Some (assign_all ws fd !! k) <-> is_Some (fd !! k) \/ In k (map fst ws).
Proof.
  induction ws as [|[k' v'] ws IH]; intros fd; [simpl; tauto|].
  rewrite assign_all_cons, IH, lookup_insert_is_Some. simpl. split.
  - intros [[H|[_ H]]|H]; auto.
  - intros [H|[H|H]]; auto. destruct (decide (k' = k)); auto.
Qed.

Lemma writes_size {V} (ws : list (str * V)) :
  forall fd : gmap str V,
  NoDup (map fst ws) ->
  (forall k, In k (map fst ws) -> fd !! k = None) ->
  size (assign_all ws fd) = size fd + length ws.
Proof.
  induction ws as [|[k v] ws IH]; intros fd Hnd Hfresh; [simpl; lia|].
  rewrite assign_all_cons. simpl in Hnd, Hfresh.
  apply NoDup_cons in Hnd as [Hk Hnd]. rewrite IH.
  - rewrite map_size_insert_None by (apply Hfresh; now left). simpl. lia.
  - exact Hnd.
  - intros k' Hk'. rewrite lookup_insert_ne.
    + apply Hfresh. now right.
    + intros ->. apply Hk. now apply list_elem_of_In.
Qed.

Lemma in_report_writes {V} (report : list (str * report_value V)) k :
  In k (map fst (report_writes report)) <->
  (exists v, In (k, Plain v) report) \/
  (exists key items ik iv,
     In (key, Inner items) report /\ In (ik, iv) items /\ k = flat_key key ik).
Proof.
  unfold report_writes. rewrite in_map_iff. split.
  - intros ([k' v] & <- & H). apply in_concat in H as (ws & Hws & H).
    apply in_map_iff in Hws as ([key [x|items]] & <- & Hin); simpl in H.
    + destruct H as [H|[]]. injection H as <- <-. left. now exists x.
    + apply in_map_iff in H as ([ik iv] & H & Hitem). injection H as <- <-.
      right. now exists key, items, ik, iv.
  - intros [(v & H)|(key & items & ik & iv & H & Hitem & ->)].
    + exists (k, v). split; [reflexivity|]. apply in_concat.
      exists [(k, v)]. split; [|now left].
      apply in_map_iff. now exists (k, Plain v).
    + exists (flat_key key ik, iv). split; [reflexivity|]. apply in_concat.
      exists (entry_writes (key, Inner items)). split.
      * apply in_map_iff. now exists (key, Inner items).
      * simpl. apply in_map_iff. now exists (ik, iv).
Qed.

(** X9. The keys of the flat dictionary are the keys of the report whose
    value is no dictionary, and [key_inner] for every key [inner] of a
    dictionary under [key]; a key whose dictionary is empty leaves
    nothing. *)
Theorem unravel_keys {V} (report : list (str * report_value V)) k :
  is_Some (unravel_metric_report report !! k) <->
  (exists v, In (k, Plain v) report) \/
  (exists key items ik iv,
     In (key, Inner items) report /\ In (ik, iv) items /\ k = flat_key key ik).
Proof.
  unfold unravel_metric_report.
  rewrite unravel_from_writes, writes_is_Some, in_report_writes, lookup_empty.
  split; [|tauto]. intros [[x H]|H]; [discriminate | exact H].
Qed.

(** X10. When two assignments of the loops hit the same flat key, as for
    a key [a_b] beside a dictionary under [a] with the key [b], the later
    one stays: the flat dictionary has, under a key, the value of the
    last assignment to it. *)
Theorem unravel_last_write_wins {V} (report : list (str * report_value V))
    w1 k v w2 :
  report_writes report = w1 ++ (k, v) :: w2 ->
  ~ In k (map fst w2) ->
  unravel_metric_report report !! k = Some v.
Proof.
  intros Hw Hlast. unfold unravel_metric_report.
  rewrite unravel_from_writes, Hw. now apply writes_lookup_last.
Qed.

Lemma unravel_last_write_wins_witness :
  unravel_metric_report
    [(py "a_b", Plain 1%Z); (py "a", Inner [(py "b", 2%Z); (py "c", 3%Z)])]
    !! py "a_b" = Some 2%Z.
Proof.
  apply (unravel_last_write_wins
           [(py "a_b", Plain 1%Z); (py "a", Inner [(py "b", 2%Z); (py "c", 3%Z)])]
           [(py "a_b", 1%Z)] (py "a_b") 2%Z [(py "a_c", 3%Z)]).
  - reflexivity.
  - vm_compute. intros [H|[]]. discriminate.
Defined.

(** X11. When no two assignments hit the same flat key, nothing is
    lost: the flat dictionary has one entry for every value of the
    report that is no dictionary and for every value inside a
    dictionary, each under its key. *)
Theorem unravel_keeps_everything {V} (report : list (str * report_value V)) :
  NoDup (map fst (report_writes report)) ->
  size (unravel_metric_report report) = length (report_writes report) /\
  forall k v, In (k, v) (report_writes report) ->
    unravel_metric_report report !! k = Some v.
Proof.
  intros Hnd. unfold unravel_metric_report. rewrite unravel_from_writes. split.
  - rewrite writes_size; [now rewrite map_size_empty | exact Hnd |].
    intros k _. apply lookup_empty.
  - intros k v Hin. apply in_split in Hin as (w1 & w2 & E). rewrite E.
    apply writes_lookup_last. rewrite E, map_app in Hnd. simpl in Hnd.
    apply NoDup_app in Hnd as (_ & _ & Hnd). apply NoDup_cons in Hnd as [Hk _].
    intros Hin. apply Hk. now apply list_elem_of_In.
Qed.

Lemma unravel_keeps_everything_witness :
  size (unravel_metric_report
          [(py "0", Inner [(py "precision", 1%Z); (py "recall", 2%Z)]);
           (py "accuracy", Plain 3%Z);
           (py "macro avg", Inner [(py "precision", 4%Z); (py "recall", 5%Z)])])
  = length (report_writes
          [(py "0", Inner [(py "precision", 1%Z); (py "recall", 2%Z)]);
           (py "accuracy", Plain 3%Z);
           (py "macro avg", Inner [(py "precision", 4%Z); (py "recall", 5%Z)])]) /\
  forall k v,
    In (k, v) (report_writes
          [(py "0", Inner [(py "precision", 1%Z); (py "recall", 2%Z)]);
           (py "accuracy", Plain 3%Z);
           (py "macro avg", Inner [(py "precision", 4%Z); (py "recall", 5%Z)])]) ->
    unravel_metric_report
          [(py "0", Inner [(py "precision", 1%Z); (py "recall", 2%Z)]);
           (py "accuracy", Plain 3%Z);
           (py "macro avg", Inner [(py "precision", 4%Z); (py "recall", 5%Z)])]
      !! k = Some v.
Proof.
  apply unravel_keeps_everything. vm_compute.
  repeat (apply NoDup_cons; split; [rewrite list_elem_of_In; simpl; intuition discriminate|]).
  apply NoDup_nil. exact I.
Defined.

(** ** [convert_and_clean_dict] *)

Lemma py_float_raises s e : py_float s = Raise e -> exists msg, e = ValueError msg.
Proof.
  unfold py_float. destruct (sign (strip_number s)) as [negative body].
  destruct (eq_str _ _ || eq_str _ _); [discriminate|].
  destruct (eq_str _ _); [discriminate|].
  match goal with |- match ?p with _ => _ end = _ -> _ => destruct p end;
    [discriminate|].
  intros H. injection H as <-. eauto.
Qed.

Lemma py_int_raises s e : py_int s = Raise e -> exists msg, e = ValueError msg.
Proof.
  unfold py_int. destruct (sign (strip_number s)) as [negative body].
  destruct (digitpart body).
  - destruct (_ && _); [|discriminate]. intros H. injection H as <-. eauto.
  - intros H. injection H as <-. eauto.
Qed.

Lemma isdigit_char_plain a :
  isdigit_char a = true ->
  isspace_number a = false /\ Ascii.eqb a hyphen = false /\
  Ascii.eqb a (ascii_of_nat 43) = false /\ Ascii.eqb a underscore = false.
Proof.
  destruct a as [[] [] [] [] [] [] [] []]; vm_compute; intros H;
    try discriminate; auto.
Qed.

Lemma isdigit_isdigit_char a : isdigit a = true -> isdigit_char a = true.
Proof. unfold isdigit_char. now intros ->. Qed.

Lemma forallb_impl {A} (f g : A -> bool) l :
  (forall a, f a = true -> g a = true) -> forallb f l = true -> forallb g l = true.
Proof.
  intros Hfg. induction l as [|a l IH]; simpl; [reflexivity|].
  intros H. apply andb_true_iff in H as [Ha Hl]. now rewrite (Hfg a Ha), IH.
Qed.

Lemma str_isdigit_inv s :
  str_isdigit s = true -> s <> [] /\ forallb isdigit_char s = true.
Proof.
  unfold str_isdigit. intros H. apply andb_true_iff in H as [H1 H2].
  split; [|exact H2]. intros ->. discriminate.
Qed.

Lemma str_isdigit_digits ds :
  ds <> [] -> forallb isdigit ds = true -> str_isdigit ds = true.
Proof.
  intros Hne H. unfold str_isdigit.
  rewrite (forallb_impl _ _ _ isdigit_isdigit_char H), andb_true_r.
  destruct ds; [congruence | reflexivity].
Qed.

Lemma lstrip_hyphen_digits s :
  str_isdigit s = true -> lstrip_char hyphen s = s.
Proof.
  intros H. apply str_isdigit_inv in H as [Hne H].
  destruct s as [|a s]; [reflexivity|]. simpl in H.
  apply andb_true_iff in H as [Ha _].
  destruct (isdigit_char_plain a Ha) as (_ & Hh & _). simpl. now rewrite Hh.
Qed.

Lemma lstrip_hyphens n ds :
  str_isdigit ds = true -> lstrip_char hyphen (hyphens n ds) = ds.
Proof.
  intros H. unfold hyphens. induction n as [|n IH]; cbn [repeat app lstrip_char].
  - now apply lstrip_hyphen_digits.
  - now rewrite Ascii.eqb_refl.
Qed.

Lemma not_space_hyphens n ds :
  forallb isdigit_char ds = true ->
  forallb (fun a => negb (isspace_number a)) (hyphens n ds) = true.
Proof.
  intros H. unfold hyphens. rewrite forallb_app. apply andb_true_iff. split.
  - induction n; simpl; auto.
  - apply (forallb_impl isdigit_char); [|exact H].
    intros a Ha. destruct (isdigit_char_plain a Ha) as [-> _]. reflexivity.
Qed.

Lemma strip_number_hyphens n ds :
  ds <> [] -> forallb isdigit_char ds = true ->
  strip_number (hyphens n ds) = hyphens n ds.
Proof.
  intros Hne H. apply (strip_number_ends (fun a => negb (isspace_number a))).
  - unfold hyphens. destruct n; simpl; [exact Hne | discriminate].
  - now apply not_space_hyphens.
  - intros a Ha. now apply negb_true_iff in Ha.
Qed.

(** A text of digit characters that [int] accepts has digits 0 to 9
    only. *)
Lemma digitpart_plain_digits s : forall ds,
  forallb isdigit_char s = true -> digitpart s = Some ds ->
  forallb isdigit s = true.
Proof.
  induction s as [|a s IH]; intros ds H Hd; [reflexivity|].
  simpl in H. apply andb_true_iff in H as [Ha Hs].
  cbn [digitpart] in Hd. destruct (isdigit a) eqn:Ea; [|discriminate].
  simpl. rewrite Ea. simpl. destruct s as [|b s]; [reflexivity|].
  assert (Hb : isdigit_char b = true) by (simpl in Hs; now apply andb_true_iff in Hs).
  destruct (isdigit_char_plain b Hb) as (_ & _ & _ & Hu). rewrite Hu in Hd.
  destruct (digitpart (b :: s)) as [ds'|] eqn:E; [|discriminate].
  now apply (IH ds').
Qed.

(** X12. [convert] raises only in its two [int] branches: for text that
    is, behind any hyphens in front, a run of digit characters, and then
    with a [ValueError].  Every other text gets a value. *)
Theorem convert_raises_only_on_digit_text value e :
  convert value = Raise e ->
  str_isdigit (lstrip_char hyphen value) = true /\ exists msg, e = ValueError msg.
Proof.
  unfold convert. destruct (str_isdigit value) eqn:E1.
  - rewrite lstrip_hyphen_digits, E1 by exact E1.
    destruct (py_int value) as [z|e0] eqn:Ei; simpl; [discriminate|].
    intros H. injection H as <-. split; [reflexivity|]. now apply (py_int_raises value).
  - destruct (str_isdigit (lstrip_char hyphen value)) eqn:E2.
    + destruct (py_int value) as [z|e0] eqn:Ei; simpl; [discriminate|].
      intros H. injection H as <-. split; [reflexivity|].
      now apply (py_int_raises value).
    + destruct (py_float value) as [f|e0] eqn:Ef; [discriminate|].
      destruct (py_float_raises _ _ Ef) as [msg ->].
      repeat match goal with |- (if ?c then _ else _) = _ -> _ => destruct c end;
        discriminate.
Qed.

Lemma convert_raises_only_on_digit_text_witness :
  str_isdigit (lstrip_char hyphen (py "--5")) = true /\
  exists msg,
    ValueError (py "invalid literal for int() with base 10: '--5'") = ValueError msg.
Proof.
  apply (convert_raises_only_on_digit_text (py "--5")). reflexivity.
Defined.

(** X13. A run of at most 4300 digits 0 to 9 becomes the [int] it
    writes, and with one hyphen in front the negative of it. *)
Theorem convert_integer ds :
  ds <> [] -> forallb isdigit ds = true -> length ds <= int_max_str_digits ->
  convert ds = Ok (VInt (Z.of_N (digits_value ds))) /\
  convert (hyphen :: ds) = Ok (VInt (- Z.of_N (digits_value ds))).
Proof.
  intros Hne Hds Hlen. pose proof (str_isdigit_digits ds Hne Hds) as Hd. split.
  - unfold convert. rewrite Hd, py_int_short_digits by assumption. reflexivity.
  - unfold convert.
    change (str_isdigit (hyphen :: ds)) with (false && forallb isdigit_char ds).
    cbn [andb]. change (hyphen :: ds) with (hyphens 1 ds).
    rewrite lstrip_hyphens, Hd by exact Hd.
    unfold py_int. apply str_isdigit_inv in Hd as [_ Hd].
    rewrite strip_number_hyphens by assumption.
    unfold hyphens, sign. cbn [repeat app]. unfold hyphen at 1.
    rewrite Ascii.eqb_refl, digitpart_digits by assumption.
    apply Nat.ltb_ge in Hlen. now rewrite Hlen, andb_false_r.
Qed.

Lemma convert_integer_witness :
  convert (py "042") = Ok (VInt (Z.of_N (digits_value (py "042")))) /\
  convert (hyphen :: py "042") = Ok (VInt (- Z.of_N (digits_value (py "042")))).
Proof.
  apply (convert_integer (py "042")); try reflexivity; [discriminate|].
  unfold int_max_str_digits. apply Nat.leb_le. vm_compute. reflexivity.
Defined.

(** X14. With two or more hyphens in front of a run of digit characters
    [convert] does not return the text: [lstrip('-')] lets it pass as a
    negative integer, and [int] raises [ValueError]. *)
Theorem convert_hyphens_raise n ds :
  2 <= n -> str_isdigit ds = true ->
  exists msg, convert (hyphens n ds) = Raise (ValueError msg).
Proof.
  intros Hn Hd. destruct n as [|[|n]]; try lia.
  unfold convert.
  change (str_isdigit (hyphens (S (S n)) ds))
    with (false && forallb isdigit_char (hyphens (S n) ds)).
  cbn [andb]. rewrite lstrip_hyphens, Hd by exact Hd.
  unfold py_int. apply str_isdigit_inv in Hd as [Hne Hd].
  rewrite strip_number_hyphens by assumption.
  unfold hyphens, sign. cbn [repeat app]. unfold hyphen at 1.
  rewrite Ascii.eqb_refl. cbn [digitpart].
  change (isdigit hyphen) with false. cbn iota. simpl. eauto.
Qed.

Lemma convert_hyphens_raise_witness :
  exists msg, convert (hyphens 2 (py "5")) = Raise (ValueError msg).
Proof. apply (convert_hyphens_raise 2 (py "5")); [lia | reflexivity]. Defined.

(** X15. A text of digit characters that holds a superscript digit
    passes [isdigit], and [int] raises [ValueError] for it. *)
Theorem convert_superscript_raises s :
  str_isdigit s = true -> forallb isdigit s = false ->
  exists msg, convert s = Raise (ValueError msg).
Proof.
  intros Hd Hsup. unfold convert. rewrite Hd.
  apply str_isdigit_inv in Hd as [Hne Hd].
  destruct (py_int s) as [z|e] eqn:E; simpl.
  - exfalso. unfold py_int in E.
    change s with (hyphens 0 s) in E at 1.
    rewrite strip_number_hyphens in E by assumption. unfold hyphens in E. simpl in E.
    destruct s as [|a s]; [congruence|].
    assert (Ha : isdigit_char a = true) by (simpl in Hd; now apply andb_true_iff in Hd).
    destruct (isdigit_char_plain a Ha) as (_ & H1 & H2 & _).
    unfold sign in E. fold hyphen in E. rewrite H1, H2 in E.
    destruct (digitpart (a :: s)) as [ds|] eqn:Edp; [|discriminate].
    rewrite (digitpart_plain_digits _ _ Hd Edp) in Hsup. discriminate.
  - destruct (py_int_raises _ _ E) as [msg ->]. eauto.
Qed.

Lemma convert_superscript_raises_witness :
  exists msg, convert [ascii_of_nat 49; ascii_of_nat 178] = Raise (ValueError msg).
Proof.
  apply (convert_superscript_raises [ascii_of_nat 49; ascii_of_nat 178]); reflexivity.
Defined.

Lemma lower_char_letter c x :
  In x (py "truefalsno") -> lower_char c = x ->
  c = x \/ c = ascii_of_nat (nat_of_ascii x - 32).
Proof.
  unfold py. simpl In. intros H.
  repeat (destruct H as [<-|H]); try contradiction;
    destruct c as [[] [] [] [] [] [] [] []]; vm_compute; intros E;
    try discriminate; auto.
Qed.

Ltac letter_cases H :=
  apply lower_char_letter in H;
  [destruct H as [H|H]; vm_compute in H; subst
  | unfold py; simpl; tauto].

(** X16. The words [true], [false] and [none] are recognised in any mix
    of upper and lower case, and become [True], [False] and [None]. *)
Theorem convert_words_any_case s w v :
  In (w, v) [(py "true", VBool true); (py "false", VBool false); (py "none", VNone)] ->
  str_lower s = w ->
  convert s = Ok v.
Proof.
  intros Hw Hs. simpl in Hw. destruct Hw as [Hw|[Hw|[Hw|[]]]];
    injection Hw as <- <-.
  - destruct s as [|c1 [|c2 [|c3 [|c4 [|c5 s]]]]]; try discriminate.
    unfold str_lower, py in Hs. simpl in Hs. injection Hs as H1 H2 H3 H4.
    letter_cases H1; letter_cases H2; letter_cases H3; letter_cases H4;
      vm_compute; reflexivity.
  - destruct s as [|c1 [|c2 [|c3 [|c4 [|c5 [|c6 s]]]]]]; try discriminate.
    unfold str_lower, py in Hs. simpl in Hs. injection Hs as H1 H2 H3 H4 H5.
    letter_cases H1; letter_cases H2; letter_cases H3; letter_cases H4;
      letter_cases H5; vm_compute; reflexivity.
  - destruct s as [|c1 [|c2 [|c3 [|c4 [|c5 s]]]]]; try discriminate.
    unfold str_lower, py in Hs. simpl in Hs. injection Hs as H1 H2 H3 H4.
    letter_cases H1; letter_cases H2; letter_cases H3; letter_cases H4;
      vm_compute; reflexivity.
Qed.

Lemma convert_words_any_case_witness : convert (py "TrUe") = Ok (VBool true).
Proof.
  apply (convert_words_any_case (py "TrUe") (py "true") (VBool true));
    [now left | reflexivity].
Defined.

(** The entries of the dictionary the loop builds. *)
Lemma clean_items_entries items : forall d d' k,
  clean_items items d = Ok d' ->
  (is_Some (d' !! k) <->
   is_Some (d !! k) \/ exists value, In (k, value) items /\ keep_value value = true) /\
  (forall x, d' !! k = Some x ->
   d !! k = Some x \/
   exists value, In (k, value) items /\ keep_value value = true /\ convert value = Ok x).
Proof.
  induction items as [|[key value] items IH]; intros d d' k H; simpl in H.
  - injection H as <-. split.
    + split; [auto|]. intros [H|(v & [] & _)]. exact H.
    + auto.
  - destruct (keep_value value) eqn:Ekeep.
    + destruct (convert value) as [x0|e] eqn:Ec; simpl in H; [|discriminate].
      destruct (IH _ _ k H) as [Hdom Hval]. split.
      * rewrite Hdom, lookup_insert_is_Some. split.
        -- intros [[Hk|[_ Hk]]|(v & Hin & Hv)]; eauto.
           ++ right. exists value. split; [left; now rewrite Hk | exact Ekeep].
           ++ right. exists v. split; [now right | exact Hv].
        -- intros [Hk|(v & [Hin|Hin] & Hv)]; eauto.
           ++ destruct (decide (key = k)); auto.
           ++ injection Hin as <- <-. auto.
      * intros x Hx. destruct (Hval x Hx) as [Hk|(v & Hin & Hv & Hc)].
        -- destruct (decide (key = k)) as [<-|Hne].
           ++ rewrite lookup_insert_eq in Hk. injection Hk as <-.
              right. exists value. repeat split; auto. now left.
           ++ rewrite lookup_insert_ne in Hk by exact Hne. now left.
        -- right. exists v. repeat split; auto. now right.
    + destruct (IH _ _ k H) as [Hdom Hval]. split.
      * rewrite Hdom. split.
        -- intros [Hk|(v & Hin & Hv)]; eauto.
           right. exists v. split; [now right | exact Hv].
        -- intros [Hk|(v & [Hin|Hin] & Hv)]; eauto.
           injection Hin as <- <-. congruence.
      * intros x Hx. destruct (Hval x Hx) as [Hk|(v & Hin & Hv & Hc)]; auto.
        right. exists v. repeat split; auto. now right.
Qed.

(** X17. The dictionary that [convert_and_clean_dict] returns has
    exactly the keys whose value, stripped, is neither empty nor [{}],
    and every entry is [convert] of such a value of its key. *)
Theorem cleaned_dict_entries dictionary d k :
  convert_and_clean_dict dictionary = Ok d ->
  (is_Some (d !! k) <->
   exists value, In (k, value) dictionary /\ keep_value value = true) /\
  (forall x, d !! k = Some x ->
   exists value,
     In (k, value) dictionary /\ keep_value value = true /\ convert value = Ok x).
Proof.
  unfold convert_and_clean_dict. intros H.
  destruct (clean_items_entries dictionary ∅ d k H) as [Hdom Hval]. split.
  - rewrite Hdom, lookup_empty. split; [|auto].
    intros [[x Hx]|Hx]; [discriminate | exact Hx].
  - intros x Hx. destruct (Hval x Hx) as [Hk|Hk]; [|exact Hk].
    now rewrite lookup_empty in Hk.
Qed.

Lemma cleaned_dict_entries_witness :
  (is_Some (({[ py "n" := VInt 5; py "lr" := VFloat (FDec false 1 (-2)) ]}
              : gmap str pyvalue) !! py "n") <->
   exists value,
     In (py "n", value)
        [(py "n", py "5"); (py "opts", py " {} "); (py "lr", py "1e-2");
         (py "note", py "  ")] /\
     keep_value value = true) /\
  (forall x,
     ({[ py "n" := VInt 5; py "lr" := VFloat (FDec false 1 (-2)) ]}
        : gmap str pyvalue) !! py "n" = Some x ->
     exists value,
       In (py "n", value)
          [(py "n", py "5"); (py "opts", py " {} "); (py "lr", py "1e-2");
           (py "note", py "  ")] /\
       keep_value value = true /\ convert value = Ok x).
Proof.
  apply (cleaned_dict_entries
           [(py "n", py "5"); (py "opts", py " {} "); (py "lr", py "1e-2");
            (py "note", py "  ")]).
  vm_compute. reflexivity.
Defined.

(** ** The files of a data set *)

Lemma regex_rule_inv id r :
  regex_rule id = Some r ->
  r = [Lit (py "SD"); Lit (tl id); Lit (py "Q"); Group true Digit;
       Lit (py "_"); Group true Digit; Lit (py ".csv")].
Proof.
  unfold regex_rule. destruct (existsb regex_special (tl id)); [discriminate|].
  now intros H; injection H as <-.
Qed.

(** The pattern of a data set matches the names that begin with
    [SD<tail>Q<digits>_<digits>.csv], and no others. *)
Lemma re_match_synthetic tail name :
  re_match [Lit (py "SD"); Lit tail; Lit (py "Q"); Group true Digit;
            Lit (py "_"); Group true Digit; Lit (py ".csv")] name = true <->
  exists n m more,
    n <> [] /\ forallb isdigit n = true /\ m <> [] /\ forallb isdigit m = true /\
    name = synthetic_name tail n m more.
Proof.
  unfold re_match, synthetic_name. cbn [match_here]. split.
  - destruct (after_literal (py "SD") name) as [s1|] eqn:E1; [|discriminate].
    apply after_literal_inv in E1. subst name.
    destruct (after_literal tail s1) as [s2|] eqn:E2; [|discriminate].
    apply after_literal_inv in E2. subst s1.
    destruct (after_literal (py "Q") s2) as [s3|] eqn:E3; [|discriminate].
    apply after_literal_inv in E3. subst s2.
    destruct (plus_greedy _ _ _ s3) as [res|] eqn:E4; [|discriminate].
    intros _. apply plus_greedy_inv_ok in E4 as (n & s4 & Hn & Hnd & -> & E4).
    destruct (after_literal (py "_") s4) as [s5|] eqn:E5; [|discriminate].
    apply after_literal_inv in E5. subst s4.
    apply plus_greedy_inv_ok in E4 as (m & s6 & Hm & Hmd & -> & E4).
    destruct (after_literal (py ".csv") s6) as [s7|] eqn:E7; [|discriminate].
    apply after_literal_inv in E7. subst s6.
    exists n, m, s7. repeat split; assumption.
  - intros (n & m & more & Hn & Hnd & Hm & Hmd & ->).
    rewrite !after_literal_app.
    rewrite (plus_greedy_exact _ _ n [] _ ([n; m], more));
      [reflexivity | exact Hn | exact Hnd | reflexivity |].
    cbn [app]. rewrite after_literal_app.
    rewrite (plus_greedy_exact _ _ m _ _ ([n; m], more));
      [reflexivity | exact Hm | exact Hmd | reflexivity |].
    cbn [match_here app]. now rewrite after_literal_app.
Qed.

(** X18. For an id whose tail holds no pattern syntax, the files that
    [get_synthetic_filepaths_from_original_data_id] returns are the
    files of the listing that end with [.csv] and begin with [SD], the
    id without its first character, [Q], digits, [_], digits and
    [.csv]; text between that beginning and the ending is accepted. *)
Theorem synthetic_files_of_id files sd_dir id l name :
  get_synthetic_filepaths_from_original_data_id files sd_dir id = Some l ->
  (In name l <->
   In name files /\ endswith (py ".csv") name = true /\
   exists n m more,
     n <> [] /\ forallb isdigit n = true /\ m <> [] /\ forallb isdigit m = true /\
     name = synthetic_name (tl id) n m more).
Proof.
  unfold get_synthetic_filepaths_from_original_data_id, extract_filenames.
  destruct (regex_rule id) as [r|] eqn:Er; [|discriminate].
  apply regex_rule_inv in Er. subst r. intros H. injection H as <-.
  rewrite !filter_In, re_match_synthetic. tauto.
Qed.

Lemma synthetic_files_of_id_witness :
  (In (py "SD1Q2_0.csv.bak.csv") [py "SD1Q2_0.csv"; py "SD1Q2_0.csv.bak.csv"] <->
   In (py "SD1Q2_0.csv.bak.csv")
      [py "SD1Q2_0.csv"; py "SD10Q2_0.csv"; py "SD1Q2_0.csv.bak.csv";
       py "SD1Q2_0.txt"; py "notes.csv"] /\
   endswith (py ".csv") (py "SD1Q2_0.csv.bak.csv") = true /\
   exists n m more,
     n <> [] /\ forallb isdigit n = true /\ m <> [] /\ forallb isdigit m = true /\
     py "SD1Q2_0.csv.bak.csv" = synthetic_name (tl (py "D1")) n m more).
Proof.
  apply (synthetic_files_of_id
           [py "SD1Q2_0.csv"; py "SD10Q2_0.csv"; py "SD1Q2_0.csv.bak.csv";
            py "SD1Q2_0.txt"; py "notes.csv"] (py "../data/synthetic") (py "D1")).
  reflexivity.
Defined.

Lemma digits_before_Q t1 : forall t2 x y,
  forallb isdigit t1 = true -> forallb isdigit t2 = true ->
  t1 ++ py "Q" ++ x = t2 ++ py "Q" ++ y -> t1 = t2.
Proof.
  induction t1 as [|a t1 IH]; intros [|b t2] x y H1 H2 E; simpl in *.
  - reflexivity.
  - injection E as <- _. discriminate.
  - injection E as -> _. discriminate.
  - injection E as -> E. apply andb_true_iff in H1 as [_ H1].
    apply andb_true_iff in H2 as [_ H2]. f_equal. now apply (IH t2 x y).
Qed.

(** X19. Ids with different numbers do not share files: a file of the
    data set numbered [t1] is never returned for an id whose number is
    another one, also when one number begins with the other. *)
Theorem other_data_set_not_returned files sd_dir id l t1 n m more :
  get_synthetic_filepaths_from_original_data_id files sd_dir id = Some l ->
  forallb isdigit t1 = true -> forallb isdigit (tl id) = true ->
  t1 <> tl id ->
  ~ In (synthetic_name t1 n m more) l.
Proof.
  intros Hl H1 H2 Hne Hin.
  apply (synthetic_files_of_id _ _ _ _ _ Hl) in Hin
    as (_ & _ & n' & m' & more' & _ & _ & _ & _ & E).
  unfold synthetic_name in E. apply app_inv_head in E.
  now apply digits_before_Q in E.
Qed.

Lemma other_data_set_not_returned_witness :
  ~ In (synthetic_name (py "10") (py "2") (py "0") []) [py "SD1Q2_0.csv"] /\
  synthetic_name (py "10") (py "2") (py "0") [] = py "SD10Q2_0.csv".
Proof.
  split; [|reflexivity].
  apply (other_data_set_not_returned
           [py "SD1Q2_0.csv"; py "SD10Q2_0.csv"] (py "sd") (py "D1")
           [py "SD1Q2_0.csv"] (py "10") (py "2") (py "0") []);
    try reflexivity. discriminate.
Defined.
